(** * yaml_to_sexpr: a shallow embedding of the YAML to S-expression converter

    The development follows [yaml_to_sexpr.py] function by function:
    the scalar classifier ([is_iso_date], [is_symbolic_identifier],
    [escape_string]), the recursive encoder ([convert]), the pretty printer
    ([format_sexpr]), the loader ([substitute_env_variables], [load_data])
    and the command-line driver ([main]).

    Modelling conventions.
    - A Python [str] is a Rocq [string]; a character stands for a code point
      below 256, so the Unicode classes used by [re] and [str.strip] are
      given by their members in that range.
    - An exception is a value of [error]; a function that may raise returns
      a [res].
    - The YAML parser, [pathlib]'s suffix, the process environment and the
      file system are not part of the program: they are arguments.  Reading
      a file gives its text or the exception raised; writing and printing
      may raise as well, before or after part of the text is out.
    - An [int] scalar is one whose decimal text [str] gives: an interpreter
      that bounds the length of that text raises beyond the bound, and such
      ints are outside the trees modelled here. *)

From Stdlib Require Import String Ascii List ZArith NArith Bool Lia.
From Stdlib Require Import DecimalString.
Import ListNotations.

Open Scope string_scope.

(** ** Characters *)

Definition nl : ascii := "010"%char.
Definition dquote : ascii := "034"%char.
Definition backslash : ascii := "092"%char.

Definition NL : string := String nl "".
Definition DQ : string := String dquote "".
Definition BS : string := String backslash "".

Definition code (c : ascii) : N := N_of_ascii c.

Definition in_range (lo hi : N) (c : ascii) : bool :=
  ((lo <=? code c) && (code c <=? hi))%N.

(** [\d]: the decimal digits.  Below 256 these are 0 to 9 only. *)
Definition is_digit (c : ascii) : bool := in_range 48 57 c.

(** The class [[A-Za-z0-9_]]. *)
Definition is_ident_char (c : ascii) : bool :=
  in_range 65 90 c || in_range 97 122 c || in_range 48 57 c || (c =? "_")%char.

(** [\w] on a [str] pattern: alphanumeric code points and the underscore.
    Below 256 the alphanumerics outside ASCII are the feminine and masculine
    ordinal indicators, the micro sign, the superscript digits, the vulgar
    fractions and the Latin-1 letters. *)
Definition is_word (c : ascii) : bool :=
  is_ident_char c
  || (code c =? 170)%N || (code c =? 178)%N || (code c =? 179)%N
  || (code c =? 181)%N || (code c =? 185)%N || (code c =? 186)%N
  || in_range 188 190 c
  || in_range 192 214 c || in_range 216 246 c || in_range 248 255 c.

(** [str.isspace]: what [str.strip()] removes. *)
Definition is_space (c : ascii) : bool :=
  in_range 9 13 c || in_range 28 32 c || (code c =? 133)%N || (code c =? 160)%N.

(** ** String operations of the Python runtime *)

(** [s.replace(old, new)] for a one-character [old]. *)
Fixpoint replace_char (old : ascii) (new : string) (s : string) : string :=
  match s with
  | EmptyString => EmptyString
  | String c r =>
      (if (c =? old)%char then new else String c "") ++ replace_char old new r
  end.

(** [sub in s]. *)
Fixpoint contains (sub s : string) : bool :=
  prefix sub s ||
  match s with
  | EmptyString => false
  | String _ r => contains sub r
  end.

(** [s.split(sep)] for a one-character [sep]. *)
Fixpoint split_char (sep : ascii) (s : string) : list string :=
  match s with
  | EmptyString => [""]
  | String c r =>
      if (c =? sep)%char then "" :: split_char sep r
      else match split_char sep r with
           | h :: t => String c h :: t
           | [] => [String c ""]
           end
  end.

Fixpoint lstrip (s : string) : string :=
  match s with
  | EmptyString => EmptyString
  | String c r => if is_space c then lstrip r else s
  end.

Fixpoint rstrip (s : string) : string :=
  match s with
  | EmptyString => EmptyString
  | String c r =>
      match rstrip r with
      | EmptyString => if is_space c then "" else String c ""
      | r' => String c r'
      end
  end.

(** [s.strip()]. *)
Definition strip (s : string) : string := lstrip (rstrip s).

(** [" " * n]: empty when [n] is not positive. *)
Definition spaces (n : Z) : string :=
  string_of_list_ascii (repeat " "%char (Z.to_nat n)).

(** [str(n)] for an [int]. *)
Definition str_int (z : Z) : string := NilZero.string_of_int (Z.to_int z).

(** [format(n, "02d")] for a non-negative [int]. *)
Definition fmt_02d (n : N) : string :=
  let s := NilZero.string_of_uint (N.to_uint n) in
  if (String.length s <? 2)%nat then "0" ++ s else s.

(** ** Errors *)

Inductive error :=
| FileNotFoundError
| UnicodeDecodeError
| OSError             (* any other failure of open, read, write or print *)
| YAMLError
| IndexError
| UnsupportedFormat   (* ValueError("Unsupported format or ...") *)
| UnpackError.        (* ValueError of a tuple assignment *)

Inductive res (A : Type) :=
| Ok (a : A)
| Err (e : error).

Arguments Ok {A} a.
Arguments Err {A} e.

Notation "'do' x <- e ; k" :=
  (match e with Ok x => k | Err err => Err err end)
  (at level 10, x name, e at level 100, k at level 200).

(** ** Regular expressions of the classifier

    [re.match] anchors at the start; the pieces below consume a prefix and
    return the remainder.  Without [re.MULTILINE], [$] holds at the end of
    the string and also just before a newline that ends the string. *)

Definition at_dollar (s : string) : bool := (s =? "") || (s =? NL).

(** [\d{n}] *)
Fixpoint digits (n : nat) (s : string) : option string :=
  match n with
  | O => Some s
  | S n' =>
      match s with
      | String c r => if is_digit c then digits n' r else None
      | EmptyString => None
      end
  end.

(** a literal character *)
Definition lit (c : ascii) (s : string) : option string :=
  match s with
  | String c' r => if (c' =? c)%char then Some r else None
  | EmptyString => None
  end.

(** the longest prefix of characters of a class and what follows it *)
Fixpoint span (p : ascii -> bool) (s : string) : string * string :=
  match s with
  | EmptyString => ("", "")
  | String c r =>
      if p c then let (a, b) := span p r in (String c a, b) else ("", s)
  end.

Definition obind {A B} (o : option A) (f : A -> option B) : option B :=
  match o with Some a => f a | None => None end.

(** [is_iso_date]: [re.match(r"^\d{4}-\d{2}-\d{2}$", s)]. *)
Definition is_iso_date (s : string) : bool :=
  match obind (digits 4 s) (fun r =>
        obind (lit "-" r) (fun r =>
        obind (digits 2 r) (fun r =>
        obind (lit "-" r) (fun r =>
        digits 2 r)))) with
  | Some r => at_dollar r
  | None => false
  end.

(** [re.search(r"\d", s)] *)
Fixpoint has_digit (s : string) : bool :=
  match s with
  | EmptyString => false
  | String c r => is_digit c || has_digit r
  end.

(** [re.match(r"^[A-Za-z0-9_]+$", s)].  The class is consumed greedily; giving
    characters back cannot help, since [$] fails in front of a character of
    the class. *)
Definition match_identifier (s : string) : bool :=
  match span is_ident_char s with
  | (String _ _, r) => at_dollar r
  | (EmptyString, _) => false
  end.

Definition is_symbolic_identifier (s : string) : bool :=
  match_identifier s && has_digit s.

Definition escape_string (s : string) : string :=
  replace_char dquote (BS ++ DQ) (replace_char backslash (BS ++ BS) s).

(** ** The value tree produced by the loader *)

#[local] Set Warnings "-register-all".

(** A key of a mapping: [None], or any other key by the text that
    formatting it in an f-string gives. *)
Inductive key :=
| KNone
| KText (text : string).

(** [f"{k}"] *)
Definition key_text (k : key) : string :=
  match k with KNone => "None" | KText text => text end.

(** The key as the [parent_key] argument: [convert] only asks whether it is
    [None]. *)
Definition key_context (k : key) : option string :=
  match k with KNone => None | KText text => Some text end.

Inductive value :=
| VDict (items : list (key * value))
| VList (elems : list value)
| VDate (year month day : N)
| VDateTime (year month day hour minute second microsecond : N)
| VStr (s : string)
| VNone
| VBool (b : bool)
| VInt (z : Z)              (* an int that [str] prints *)
| VOther (text : string).   (* any other scalar, with its [str()] text *)

Definition make_date (y m d : string) : string :=
  "(make-date " ++ y ++ " " ++ m ++ " " ++ d ++ ")".

Definition quoted (s : string) : string := DQ ++ escape_string s ++ DQ.

(** the string branch of [convert] *)
Definition convert_str (obj : string) : res string :=
  if is_iso_date obj then
    match split_char "-" obj with
    | [y; m; d] => Ok (make_date y m d)
    | _ => Err UnpackError
    end
  else if contains "{{" obj && contains "}}" obj then Ok (quoted obj)
  else if is_symbolic_identifier obj then Ok ("'" ++ obj)
  else Ok (quoted obj).

Definition separator (parent_key : option string) : string :=
  match parent_key with None => NL | Some _ => " " end.

Fixpoint convert (prefix : string) (parent_key : option string) (obj : value)
  {struct obj} : res string :=
  match obj with
  | VDict items =>
      let fix inner_parts (l : list (key * value)) : res (list string) :=
        match l with
        | [] => Ok []
        | (k, v) :: tl =>
            do e <- convert prefix (key_context k) v;
            do ps <- inner_parts tl;
            Ok (("(" ++ prefix ++ ":" ++ key_text k ++ " " ++ e ++ ")") :: ps)
        end in
      do ps <- inner_parts items;
      Ok (String.concat (separator parent_key) ps)
  | VList elems =>
      let fix items (l : list value) : res (list string) :=
        match l with
        | [] => Ok []
        | v :: tl =>
            do e <- convert prefix None v;
            do ps <- items tl;
            Ok (("(" ++ prefix ++ ":item " ++ e ++ ")") :: ps)
        end in
      do ps <- items elems;
      Ok ("(" ++ NL ++ String.concat NL ps ++ ")")
  | VDate y m d | VDateTime y m d _ _ _ _ =>
      (* isinstance(obj, datetime.date): datetime.datetime is a subclass *)
      Ok (make_date (str_int (Z.of_N y)) (fmt_02d m) (fmt_02d d))
  | VStr s => convert_str s
  | VNone => Ok "'nil"
  | VBool b => Ok (if b then "#t" else "#f")
  | VInt z => Ok (str_int z)
  | VOther text => Ok text
  end.

(** ** Pretty printer *)

Record pp_state := {
  result : list string;
  depth : Z;
  token : string
}.

(** [if token.strip(): result.append(lead + token.strip()); token = ""] *)
Definition flush (lead : string) (st : pp_state) : pp_state :=
  match strip (token st) with
  | EmptyString => st
  | t =>
      {| result := result st ++ [lead ++ t]; depth := depth st; token := "" |}
  end.

(** the body of the loop of [format_sexpr] *)
Definition pp_step (indent : Z) (st : pp_state) (char : ascii) : pp_state :=
  if (char =? "(")%char then
    let st := flush "" st in
    {| result := result st ++ [NL ++ spaces (depth st * indent) ++ "("];
       depth := depth st + 1;
       token := token st |}
  else if (char =? ")")%char then
    let st := flush " " st in
    {| result := result st ++ [")"];
       depth := depth st - 1;
       token := token st |}
  else if (char =? nl)%char then
    let st := flush " " st in
    {| result := result st ++ [NL ++ spaces (depth st * indent)];
       depth := depth st;
       token := token st |}
  else
    {| result := result st; depth := depth st;
       token := token st ++ String char "" |}.

Fixpoint pp_run (indent : Z) (st : pp_state) (expr : string) : pp_state :=
  match expr with
  | EmptyString => st
  | String char r => pp_run indent (pp_step indent st char) r
  end.

Definition pp_init : pp_state := {| result := []; depth := 0; token := "" |}.

Definition format_sexpr (expr : string) (indent : Z) : string :=
  strip (String.concat "" (result (pp_run indent pp_init expr))).

(** ** Loader *)

(** [os.environ] as a lookup function *)
Definition environ := string -> option string.

(** [os.environ.get(name, "")] *)
Definition environ_get (env : environ) (name : string) : string :=
  match env name with Some v => v | None => "" end.

(** One match of [\$\{(\w+)\}] at the start of [s]: the group and what
    follows the match.  [\w+] is greedy and the closing brace is not a word
    character, so the group is the longest run of word characters. *)
Definition match_var (s : string) : option (string * string) :=
  obind (lit "$" s) (fun r =>
  obind (lit "{" r) (fun r =>
  match span is_word r with
  | (String c n, r') =>
      obind (lit "}" r') (fun rest => Some (String c n, rest))
  | (EmptyString, _) => None
  end)).

(** [re.sub] scans from the left: at a match it emits the replacement and
    resumes after the match, elsewhere it copies one character.  A match is
    never empty, so the length of the text bounds the number of steps. *)
Fixpoint sub_from (fuel : nat) (env : environ) (s : string) : string :=
  match fuel with
  | O => ""
  | S fuel' =>
      match s with
      | EmptyString => ""
      | String c r =>
          match match_var s with
          | Some (name, rest) =>
              environ_get env name ++ sub_from fuel' env rest
          | None => String c (sub_from fuel' env r)
          end
      end
  end.

Definition substitute_env_variables (env : environ) (content : string)
  : string :=
  sub_from (String.length content) env content.

Inductive format := yaml | json.

Definition format_eqb (a b : format) : bool :=
  match a, b with
  | yaml, yaml | json, json => true
  | _, _ => false
  end.

(** The file system as the loader sees it: what opening a path for reading
    as UTF-8 and reading it gives, the text or the exception raised (a
    missing file, bytes that are no UTF-8, ...). *)
Definition files_t := string -> res string.

(** How a write or a print ends: well, with an exception before anything
    is out, or with an exception after some characters are out. *)
Inductive io_outcome :=
| Done
| RaisesBefore (e : error)
| RaisesAfter (e : error) (written : nat).

Record args := {
  input : string;
  output : option string;
  format_hint : option format;
  pretty : bool;
  env_flag : bool
}.

Record world := {
  files : files_t;
  stdout : string;
  on_write : string -> io_outcome;   (* how writing to a path will end *)
  on_print : io_outcome              (* how printing will end *)
}.

(** the world in which the file at [path] holds [text] *)
Definition set_file (w : world) (path text : string) : world :=
  {| files := fun p => if (p =? path)%string then Ok text else files w p;
     stdout := stdout w; on_write := on_write w; on_print := on_print w |}.

Definition put_stdout (w : world) (text : string) : world :=
  {| files := files w; stdout := stdout w ++ text;
     on_write := on_write w; on_print := on_print w |}.

(** [with open(path, "w", encoding="utf-8") as out_f: out_f.write(text)].
    When [open] raises the file is as it was; once it is open it is empty,
    and it holds what was written when [write] or the closing raises. *)
Definition write_file (w : world) (path text : string) : res unit * world :=
  match on_write w path with
  | Done => (Ok tt, set_file w path text)
  | RaisesBefore e => (Err e, w)
  | RaisesAfter e n => (Err e, set_file w path (substring 0 n text))
  end.

(** [print(text)]: the text and a newline. *)
Definition print (w : world) (text : string) : res unit * world :=
  match on_print w with
  | Done => (Ok tt, put_stdout w (text ++ NL))
  | RaisesBefore e => (Err e, w)
  | RaisesAfter e n => (Err e, put_stdout w (substring 0 n (text ++ NL)))
  end.

Definition is_dict (v : value) : bool :=
  match v with VDict _ => true | _ => false end.

Section Driver.

(** [list(yaml.safe_load_all(raw))] *)
Variable safe_load_all : string -> res (list value).

(** [Path(p).suffix] *)
Variable suffix : string -> string.

Definition load_data (fs : files_t) (env : environ) (input_file : string)
    (fmt : option format) (enable_env : bool) : res value :=
  match fs input_file with
  | Err e => Err e
  | Ok raw =>
      let raw :=
        if enable_env then substitute_env_variables env raw else raw in
      if match fmt with
         | Some f => format_eqb f yaml
         | None => existsb (String.eqb (suffix input_file)) [".yaml"; ".yml"]
         end
      then
        do docs <- safe_load_all raw;
        if (1 <? List.length docs)%nat then Ok (VList docs)
        else match docs with
             | d :: _ => Ok d
             | [] => Err IndexError
             end
      else Err UnsupportedFormat
  end.

(** [['(' + convert(doc) + ')' for doc in data]] *)
Fixpoint wrap_docs (docs : list value) : res (list string) :=
  match docs with
  | [] => Ok []
  | doc :: tl =>
      do e <- convert "yaml" None doc;
      do ps <- wrap_docs tl;
      Ok (("(" ++ e ++ ")") :: ps)
  end.

Definition top_level (data : value) : res string :=
  match data with
  | VList docs =>
      if forallb is_dict docs then
        do ps <- wrap_docs docs;
        Ok ("(" ++ String.concat " " ps ++ ")")
      else
        do e <- convert "yaml" None data; Ok ("(" ++ e ++ ")")
  | _ => do e <- convert "yaml" None data; Ok ("(" ++ e ++ ")")
  end.

(** [main]: the outcome and the world it leaves.  An exception ends the
    run at the statement that raised it. *)
Definition main (a : args) (env : environ) (w : world) : res unit * world :=
  match load_data (files w) env (input a) (format_hint a) (env_flag a) with
  | Err e => (Err e, w)
  | Ok data =>
      match top_level data with
      | Err e => (Err e, w)
      | Ok sexpr =>
          let sexpr := if pretty a then format_sexpr sexpr 2 else sexpr in
          match output a with
          | Some (String c p) => write_file w (String c p) sexpr
          | _ => print w sexpr
          end
      end
  end.

End Driver.

(** ** Vocabulary of the statements *)

(** every character of [s] satisfies [p] *)
Fixpoint all_chars (p : ascii -> bool) (s : string) : bool :=
  match s with
  | EmptyString => true
  | String c r => p c && all_chars p r
  end.

(** the characters of a string accepted by [is_iso_date] *)
Definition date_char (c : ascii) : bool :=
  is_digit c || (c =? "-")%char || (c =? nl)%char.

(** The two comprehensions of [convert], as functions of their own. *)
Fixpoint inner_parts (prefix : string) (l : list (key * value))
  : res (list string) :=
  match l with
  | [] => Ok []
  | (k, v) :: tl =>
      do e <- convert prefix (key_context k) v;
      do ps <- inner_parts prefix tl;
      Ok (("(" ++ prefix ++ ":" ++ key_text k ++ " " ++ e ++ ")") :: ps)
  end.

Fixpoint item_parts (prefix : string) (l : list value) : res (list string) :=
  match l with
  | [] => Ok []
  | v :: tl =>
      do e <- convert prefix None v;
      do ps <- item_parts prefix tl;
      Ok (("(" ++ prefix ++ ":item " ++ e ++ ")") :: ps)
  end.

(** Escaping as the specification words it: a backslash becomes two, a
    double quote gets a backslash in front, any other character stays. *)
Definition escape_char (c : ascii) : string :=
  if (c =? backslash)%char then BS ++ BS
  else if (c =? dquote)%char then BS ++ DQ
  else String c "".

Fixpoint escaped (s : string) : string :=
  match s with
  | EmptyString => ""
  | String c r => escape_char c ++ escaped r
  end.

(** A variable name of the substitution: one or more word characters. *)
Definition is_name (name : string) : bool :=
  match name with
  | EmptyString => false
  | String _ _ => all_chars is_word name
  end.

(** Text with no occurrence of a reference: no suffix of it starts with a
    match of the pattern. *)
Fixpoint ref_free (t : string) : bool :=
  match t with
  | EmptyString => true
  | String _ r =>
      match match_var t with Some _ => false | None => ref_free r end
  end.

(** A raw text cut at its references: each reference with the text in front
    of it, then the text after the last one. *)
Definition raw_text (refs : list (string * string)) (tail : string) : string :=
  fold_right (fun pn acc => fst pn ++ "${" ++ snd pn ++ "}" ++ acc) tail refs.

Definition expanded (env : environ) (refs : list (string * string))
    (tail : string) : string :=
  fold_right (fun pn acc => fst pn ++ environ_get env (snd pn) ++ acc)
    tail refs.

Definition well_cut (refs : list (string * string)) (tail : string) : bool :=
  forallb (fun pn => ref_free (fst pn) && is_name (snd pn)) refs
  && ref_free tail.

(** A character that is no event of the pretty printer. *)
Definition flat_char (c : ascii) : bool :=
  negb (c =? "(")%char && negb (c =? ")")%char && negb (c =? nl)%char.

(** Balanced parentheses: no closing one without its opening one, and none
    left open. *)
Fixpoint balanced_from (open : nat) (s : string) : bool :=
  match s with
  | EmptyString => (open =? 0)%nat
  | String c r =>
      if (c =? "(")%char then balanced_from (S open) r
      else if (c =? ")")%char then
        match open with
        | O => false
        | S n => balanced_from n r
        end
      else balanced_from open r
  end.

Definition balanced (s : string) : bool := balanced_from 0 s.

(** what the pretty printer emits for a pending token in front of a closing
    parenthesis *)
Definition flushed (t : string) : string :=
  match strip t with
  | EmptyString => ""
  | u => " " ++ u
  end.

(** A character that is no parenthesis. *)
Definition no_paren (c : ascii) : bool :=
  negb (c =? "(")%char && negb (c =? ")")%char.

(** the text emitted so far *)
Definition joined (st : pp_state) : string := String.concat "" (result st).

(** what the pretty printer emits for the lines after the first one of a
    form: a line break, the indentation, the trimmed token *)
Fixpoint continued (n : Z) (ls : list string) : string :=
  match ls with
  | [] => ""
  | l :: r => NL ++ spaces n ++ flushed l ++ continued n r
  end.

(** A reader of escaped text: a backslash gives the character behind it. *)
Fixpoint unescape (s : string) : string :=
  match s with
  | EmptyString => ""
  | String c r =>
      if (c =? backslash)%char then
        match r with
        | String d r' => String d (unescape r')
        | EmptyString => String c ""
        end
      else String c (unescape r)
  end.

(** the text without its whitespace *)
Fixpoint nonspace (s : string) : string :=
  match s with
  | EmptyString => ""
  | String c r => if is_space c then nonspace r else String c (nonspace r)
  end.

(** what the pretty printer holds: the emitted text and the pending token,
    whitespace apart *)
Definition content (st : pp_state) : string :=
  nonspace (joined st) ++ nonspace (token st).



(** The two ways to the parser: the hint [yaml], or no hint and a YAML
    suffix. *)
Definition parsed_as_yaml (suffix : string -> string) (input_file : string)
    (fmt : option format) : Prop :=
  fmt = Some yaml
  \/ (fmt = None
      /\ (suffix input_file = ".yaml" \/ suffix input_file = ".yml")).

(** what the loader returns for the documents of a stream *)
Definition loaded (docs : list value) : res value :=
  if (1 <? List.length docs)%nat then Ok (VList docs)
  else match docs with
       | d :: _ => Ok d
       | [] => Err IndexError
       end.

(** The text holds no reference: it is no text in front of a reference and
    a text behind it. *)
Definition no_reference (t : string) : Prop :=
  forall pre name post,
    is_name name = true -> t <> pre ++ "${" ++ name ++ "}" ++ post.

(** Decimal text read back as a number. *)
Fixpoint decimal_value_from (acc : N) (s : string) : option N :=
  match s with
  | EmptyString => Some acc
  | String c r =>
      if is_digit c then decimal_value_from (10 * acc + (code c - 48)) r
      else None
  end.

Definition decimal_value (s : string) : option N :=
  match s with
  | EmptyString => None
  | String _ _ => decimal_value_from 0 s
  end.

(** ** Sample runs *)

Definition sample_json : string := "{" ++ DQ ++ "a" ++ DQ ++ ": 1}".

Definition sample_files : files_t :=
  fun p =>
    if (p =? "data.json")%string then Ok sample_json
    else if (p =? "bad.yaml")%string then Ok "a: ["
    else if (p =? "conf.yaml")%string then Ok "home: ${HOME}, user: ${USER}."
    else if (p =? "latin1.txt")%string then Err UnicodeDecodeError
    else Err FileNotFoundError.

(** a stand-in for the parser: one text it rejects, one document otherwise *)
Definition sample_parser : string -> res (list value) :=
  fun raw =>
    if (raw =? "a: [")%string then Err YAMLError
    else Ok [VDict [(KText "a", VInt 1)]].

Definition sample_suffix : string -> string :=
  fun p => if (p =? "data.json")%string then ".json" else ".yaml".

Definition sample_environ : environ :=
  fun name => if (name =? "HOME")%string then Some "/root" else None.

Definition sample_world : world :=
  {| files := sample_files; stdout := "";
     on_write := fun _ => Done; on_print := Done |}.

(** a world in which the disk is full: the output file is opened, and the
    write raises with nothing written *)
Definition full_disk_world : world :=
  {| files := sample_files; stdout := "";
     on_write := fun _ => RaisesAfter OSError 0; on_print := Done |}.

(** a parser that knows one text only *)
Definition home_parser : string -> res (list value) :=
  fun raw =>
    if (raw =? "home: /root, user: .")%string
    then Ok [VDict [(KText "home", VStr "/root, user: .")]]
    else Err YAMLError.

Definition sample_args (input_file : string) (fmt : option format) : args :=
  {| input := input_file; output := Some "out.sexpr"; format_hint := fmt;
     pretty := false; env_flag := false |}.

(** ** Induction on the value tree *)

Section ValueInd.

Variable P : value -> Prop.
Hypothesis Hdict :
  forall items, Forall (fun kv => P (snd kv)) items -> P (VDict items).
Hypothesis Hlist : forall elems, Forall P elems -> P (VList elems).
Hypothesis Hscalar : forall v, (forall l, v <> VDict l) ->
                               (forall l, v <> VList l) -> P v.

Fixpoint value_tree_ind (v : value) : P v :=
  match v with
  | VDict items =>
      Hdict items
        ((fix go (l : list (key * value)) :
            Forall (fun kv => P (snd kv)) l :=
            match l with
            | [] => Forall_nil _
            | kv :: tl =>
                Forall_cons kv
                  (match kv as kv0 return P (snd kv0) with
                   | (_, x) => value_tree_ind x
                   end)
                  (go tl)
            end) items)
  | VList elems =>
      Hlist elems
        ((fix go (l : list value) : Forall P l :=
            match l with
            | [] => Forall_nil _
            | x :: tl => Forall_cons x (value_tree_ind x) (go tl)
            end) elems)
  | v' => Hscalar v' ltac:(discriminate) ltac:(discriminate)
  end.

End ValueInd.

(** * Properties *)

(** ** Strings *)

Lemma append_nil_r (s : string) : s ++ "" = s.
Proof. induction s as [|c s IH]; simpl; [reflexivity | now rewrite IH]. Qed.

Lemma append_assoc (a b c : string) : (a ++ b) ++ c = a ++ (b ++ c).
Proof. induction a as [|x a IH]; simpl; [reflexivity | now rewrite IH]. Qed.

Lemma length_append (a b : string) :
  String.length (a ++ b) = (String.length a + String.length b)%nat.
Proof. induction a as [|x a IH]; simpl; [reflexivity | now rewrite IH]. Qed.

Lemma all_chars_app p a b :
  all_chars p (a ++ b) = all_chars p a && all_chars p b.
Proof.
  induction a as [|x a IH]; simpl; [reflexivity|].
  now rewrite IH, andb_assoc.
Qed.

Lemma all_chars_weaken (p q : ascii -> bool) s :
  (forall c, p c = true -> q c = true) ->
  all_chars p s = true -> all_chars q s = true.
Proof.
  intros Hpq. induction s as [|c s IH]; simpl; [reflexivity|].
  intros H. apply andb_true_iff in H as [Hc Hs].
  now rewrite (Hpq _ Hc), IH.
Qed.

Lemma prefix_all_chars p sub s :
  prefix sub s = true -> all_chars p s = true -> all_chars p sub = true.
Proof.
  revert s. induction sub as [|a sub IH]; intros s; [reflexivity|].
  destruct s as [|c s]; simpl; [discriminate|].
  destruct (ascii_dec a c) as [->|]; [|discriminate].
  intros Hpre H. apply andb_true_iff in H as [Hc Hs].
  now rewrite Hc, (IH s).
Qed.

Lemma contains_all_chars p sub s :
  contains sub s = true -> all_chars p s = true -> all_chars p sub = true.
Proof.
  induction s as [|c s IH]; simpl; intros H Hall.
  - rewrite orb_false_r in H. now apply prefix_all_chars with (s := "").
  - apply orb_true_iff in H as [H|H].
    + now apply prefix_all_chars with (s := String c s).
    + apply andb_true_iff in Hall as [_ Hs]. now apply IH.
Qed.

Lemma replace_char_absent old new s :
  all_chars (fun c => negb (c =? old)%char) s = true ->
  replace_char old new s = s.
Proof.
  induction s as [|c s IH]; simpl; [reflexivity|].
  intros H. apply andb_true_iff in H as [Hc Hs].
  apply negb_true_iff in Hc. now rewrite Hc, IH.
Qed.

Lemma replace_char_app old new a b :
  replace_char old new (a ++ b)
  = replace_char old new a ++ replace_char old new b.
Proof.
  induction a as [|c a IH]; simpl; [reflexivity|].
  now rewrite IH, append_assoc.
Qed.

(** ** The regular expressions *)

Lemma digits_spec n s r :
  digits n s = Some r ->
  exists p, s = p ++ r /\ String.length p = n /\ all_chars is_digit p = true.
Proof.
  revert s. induction n as [|n IH]; intros s; simpl.
  - intros [= ->]. now exists "".
  - destruct s as [|c s]; [discriminate|].
    destruct (is_digit c) eqn:Hc; [|discriminate].
    intros H. destruct (IH _ H) as (p & -> & Hlen & Hall).
    exists (String c p). simpl. now rewrite Hc, Hlen, Hall.
Qed.

Lemma digits_complete n p r :
  String.length p = n -> all_chars is_digit p = true ->
  digits n (p ++ r) = Some r.
Proof.
  intros <-. induction p as [|c p IH]; simpl; [reflexivity|].
  intros H. apply andb_true_iff in H as [Hc Hp]. now rewrite Hc, IH.
Qed.

Lemma lit_spec c s r : lit c s = Some r -> s = String c r.
Proof.
  destruct s as [|c' s]; simpl; [discriminate|].
  destruct (Ascii.eqb_spec c' c) as [->|]; [|discriminate].
  now intros [= ->].
Qed.

Lemma at_dollar_spec r : at_dollar r = true <-> r = "" \/ r = NL.
Proof.
  unfold at_dollar. rewrite orb_true_iff, !String.eqb_eq. tauto.
Qed.

(** The strings accepted by [is_iso_date]: the date text, possibly followed
    by one newline. *)
Lemma is_iso_date_spec s :
  is_iso_date s = true <->
  exists y m d r,
    s = y ++ "-" ++ m ++ "-" ++ d ++ r /\
    (String.length y = 4 /\ String.length m = 2 /\ String.length d = 2)%nat /\
    (all_chars is_digit y = true /\ all_chars is_digit m = true /\
     all_chars is_digit d = true) /\
    (r = "" \/ r = NL).
Proof.
  unfold is_iso_date. split.
  - destruct (digits 4 s) as [r1|] eqn:H1; [|discriminate]. cbn [obind].
    destruct (lit "-" r1) as [r2|] eqn:H2; [|discriminate]. cbn [obind].
    destruct (digits 2 r2) as [r3|] eqn:H3; [|discriminate]. cbn [obind].
    destruct (lit "-" r3) as [r4|] eqn:H4; [|discriminate]. cbn [obind].
    destruct (digits 2 r4) as [r5|] eqn:H5; [|discriminate].
    intros Hend.
    apply digits_spec in H1 as (y & -> & Ly & Ay).
    apply lit_spec in H2 as ->.
    apply digits_spec in H3 as (m & -> & Lm & Am).
    apply lit_spec in H4 as ->.
    apply digits_spec in H5 as (d & -> & Ld & Ad).
    exists y, m, d, r5. apply at_dollar_spec in Hend. repeat split; auto.
  - intros (y & m & d & r & -> & (Ly & Lm & Ld) & (Ay & Am & Ad) & Hr).
    rewrite (digits_complete 4 y _ Ly Ay).
    cbn [obind append lit]. rewrite Ascii.eqb_refl. cbn [obind].
    rewrite (digits_complete 2 m _ Lm Am).
    cbn [obind append lit]. rewrite Ascii.eqb_refl. cbn [obind].
    rewrite (digits_complete 2 d _ Ld Ad).
    now apply at_dollar_spec.
Qed.

Lemma is_iso_date_chars s :
  is_iso_date s = true -> all_chars date_char s = true.
Proof.
  intros H. apply is_iso_date_spec in H
    as (y & m & d & r & -> & _ & (Ay & Am & Ad) & Hr).
  assert (Hd : forall p, all_chars is_digit p = true ->
                         all_chars date_char p = true).
  { intros p. apply all_chars_weaken. intros c Hc. unfold date_char.
    now rewrite Hc. }
  rewrite !all_chars_app, (Hd _ Ay), (Hd _ Am), (Hd _ Ad).
  destruct Hr as [-> | ->]; reflexivity.
Qed.

Lemma is_iso_date_not_identifier s :
  all_chars is_ident_char s = true -> is_iso_date s = false.
Proof.
  intros Hall. destruct (is_iso_date s) eqn:H; [|reflexivity].
  apply is_iso_date_spec in H as (y & m & d & r & -> & _).
  rewrite all_chars_app in Hall. simpl in Hall.
  now rewrite andb_false_r in Hall.
Qed.

Lemma split_char_absent sep a :
  all_chars (fun c => negb (c =? sep)%char) a = true ->
  split_char sep a = [a].
Proof.
  induction a as [|c a IH]; simpl; [reflexivity|].
  intros H. apply andb_true_iff in H as [Hc Ha].
  apply negb_true_iff in Hc. now rewrite Hc, IH.
Qed.

Lemma split_char_app sep a b :
  all_chars (fun c => negb (c =? sep)%char) a = true ->
  split_char sep (a ++ String sep b) = a :: split_char sep b.
Proof.
  induction a as [|c a IH]; simpl.
  - now rewrite Ascii.eqb_refl.
  - intros H. apply andb_true_iff in H as [Hc Ha].
    apply negb_true_iff in Hc. now rewrite Hc, IH.
Qed.

Lemma digit_not_hyphen c : is_digit c = true -> negb (c =? "-")%char = true.
Proof.
  destruct (Ascii.eqb_spec c "-") as [->|]; [discriminate | reflexivity].
Qed.

(** On an accepted string the tuple assignment of [convert] succeeds. *)
Lemma split_iso_date y m d r :
  all_chars is_digit y = true -> all_chars is_digit m = true ->
  all_chars is_digit d = true -> r = "" \/ r = NL ->
  split_char "-" (y ++ "-" ++ m ++ "-" ++ d ++ r) = [y; m; d ++ r].
Proof.
  intros Ay Am Ad Hr.
  pose proof (fun p => all_chars_weaken is_digit _ p digit_not_hyphen) as Hd.
  change (y ++ "-" ++ m ++ "-" ++ d ++ r)
    with (y ++ String "-" (m ++ String "-" (d ++ r))).
  rewrite !split_char_app by auto.
  rewrite split_char_absent; [reflexivity|].
  rewrite all_chars_app, (Hd _ Ad). destruct Hr as [-> | ->]; reflexivity.
Qed.

Lemma convert_str_total s : exists e, convert_str s = Ok e.
Proof.
  unfold convert_str. destruct (is_iso_date s) eqn:Hdate.
  - apply is_iso_date_spec in Hdate
      as (y & m & d & r & -> & _ & (Ay & Am & Ad) & Hr).
    rewrite split_iso_date by assumption. eauto.
  - destruct (contains "{{" s && contains "}}" s); [eauto|].
    destruct (is_symbolic_identifier s); eauto.
Qed.

(** ** The encoder *)

Lemma convert_dict prefix parent_key items :
  convert prefix parent_key (VDict items) =
  do ps <- inner_parts prefix items;
  Ok (String.concat (separator parent_key) ps).
Proof.
  simpl.
  match goal with |- match ?t with _ => _ end = _ =>
    assert (H : t = inner_parts prefix items) end.
  { induction items as [|[k v] tl IH]; simpl; [reflexivity|].
    now rewrite IH. }
  now rewrite H.
Qed.

Lemma convert_list prefix parent_key elems :
  convert prefix parent_key (VList elems) =
  do ps <- item_parts prefix elems;
  Ok ("(" ++ NL ++ String.concat NL ps ++ ")").
Proof.
  simpl.
  match goal with |- match ?t with _ => _ end = _ =>
    assert (H : t = item_parts prefix elems) end.
  { induction elems as [|v tl IH]; simpl; [reflexivity|].
    now rewrite IH. }
  now rewrite H.
Qed.

(** The encoder raises on no value tree of the model. *)
Lemma convert_total prefix v :
  forall parent_key, exists e, convert prefix parent_key v = Ok e.
Proof.
  induction v as [items IH | elems IH | v Hd Hl] using value_tree_ind;
    intros parent_key.
  - rewrite convert_dict.
    assert (Hparts : exists ps, inner_parts prefix items = Ok ps).
    { induction IH as [|[k x] tl Hx _ IHtl]; simpl; [eauto|].
      destruct (Hx (key_context k)) as [e He]. simpl in He. rewrite He.
      destruct IHtl as [ps ->]. eauto. }
    destruct Hparts as [ps ->]. eauto.
  - rewrite convert_list.
    assert (Hparts : exists ps, item_parts prefix elems = Ok ps).
    { induction IH as [|x tl Hx _ IHtl]; simpl; [eauto|].
      destruct (Hx None) as [e ->]. destruct IHtl as [ps ->]. eauto. }
    destruct Hparts as [ps ->]. eauto.
  - destruct v; simpl; eauto using convert_str_total.
    + now destruct (Hd items).
    + now destruct (Hl elems).
Qed.

Example convert_end_to_end :
  convert "yaml" None
    (VDict [(KText "name", VStr "A4786"); (KText "active", VBool true);
            (KText "when", VDate 2024 1 1)])
  = Ok ("(yaml:name 'A4786)" ++ NL ++ "(yaml:active #t)" ++ NL
        ++ "(yaml:when (make-date 2024 01 01))").
Proof. reflexivity. Qed.

Lemma convert_string prefix parent_key s :
  convert prefix parent_key (VStr s) = convert_str s.
Proof. reflexivity. Qed.

(** In a mapping the forms come in the stored order and are joined by the
    separator that the key context selects. *)
Lemma inner_parts_length prefix items ps :
  inner_parts prefix items = Ok ps -> List.length ps = List.length items.
Proof.
  revert ps. induction items as [|[k v] tl IH]; simpl; intros ps.
  - now intros [= <-].
  - destruct (convert prefix (key_context k) v); [|discriminate].
    destruct (inner_parts prefix tl); [|discriminate].
    intros [= <-]. simpl. now rewrite (IH _ eq_refl).
Qed.

Lemma convert_dict_root prefix items ps :
  inner_parts prefix items = Ok ps ->
  convert prefix None (VDict items) = Ok (String.concat NL ps).
Proof. intros H. now rewrite convert_dict, H. Qed.

Lemma convert_dict_keyed prefix k items ps :
  inner_parts prefix items = Ok ps ->
  convert prefix (Some k) (VDict items) = Ok (String.concat " " ps).
Proof. intros H. now rewrite convert_dict, H. Qed.

(** C3 (the code differs).  A mapping that is an element of a sequence is
    encoded with no key context, so its forms are joined by a newline, not
    by a space: the list [[{a: 1, b: 2}]] gives the two forms of the inner
    mapping on two lines. *)
Theorem mapping_in_sequence_joined_by_newline :
  convert "yaml" None (VList [VDict [(KText "a", VInt 1); (KText "b", VInt 2)]])
  = Ok ("(" ++ NL ++ "(yaml:item (yaml:a 1)" ++ NL ++ "(yaml:b 2))" ++ ")").
Proof. reflexivity. Qed.

(** a mapping under the key [None] has no key context either *)
Example mapping_under_null_key_joined_by_newline :
  convert "yaml" None
    (VDict [(KNone, VDict [(KText "a", VInt 1); (KText "b", VInt 2)])])
  = Ok ("(yaml:None (yaml:a 1)" ++ NL ++ "(yaml:b 2))").
Proof. reflexivity. Qed.

Example mapping_under_key_joined_by_space :
  convert "yaml" None
    (VDict [(KText "m", VDict [(KText "a", VInt 1); (KText "b", VInt 2)])])
  = Ok "(yaml:m (yaml:a 1) (yaml:b 2))".
Proof. reflexivity. Qed.

(** *** Dates *)


Example convert_native_date :
  convert "yaml" None (VDate 2024 3 5) = Ok "(make-date 2024 03 05)".
Proof. reflexivity. Qed.

Example convert_date_string :
  convert "yaml" None (VStr "2024-03-05") = Ok "(make-date 2024 03 05)".
Proof. reflexivity. Qed.

(** C4 (the code differs).  [$] also holds in front of a final newline, so
    the date text followed by one newline is accepted by [is_iso_date]; it
    is rendered as a date construct whose day carries the newline. *)
Theorem iso_date_with_trailing_newline :
  is_iso_date ("2024-03-05" ++ NL) = true /\
  convert "yaml" None (VStr ("2024-03-05" ++ NL))
  = Ok ("(make-date 2024 03 05" ++ NL ++ ")").
Proof. split; reflexivity. Qed.

Lemma month_day_text n :
  (n <= 99)%N ->
  decimal_value (fmt_02d n) = Some n /\ String.length (fmt_02d n) = 2%nat.
Proof.
  intros Hn.
  assert (Hall : forallb
                   (fun k =>
                      match decimal_value (fmt_02d (N.of_nat k)) with
                      | Some v => (v =? N.of_nat k)%N
                      | None => false
                      end
                      && (String.length (fmt_02d (N.of_nat k)) =? 2)%nat)
                   (seq 0 100) = true) by (vm_compute; reflexivity).
  rewrite forallb_forall in Hall. specialize (Hall (N.to_nat n)).
  rewrite N2Nat.id in Hall.
  assert (Hin : In (N.to_nat n) (seq 0 100)) by (apply in_seq; lia).
  apply Hall in Hin. apply andb_true_iff in Hin as [Hv Hl].
  apply Nat.eqb_eq in Hl. split; [|exact Hl].
  destruct (decimal_value (fmt_02d n)) as [v|]; [|discriminate].
  apply N.eqb_eq in Hv. now subst v.
Qed.

Lemma year_text y :
  (1 <= y <= 9999)%N ->
  decimal_value (str_int (Z.of_N y)) = Some y
  /\ String.prefix "0" (str_int (Z.of_N y)) = false.
Proof.
  intros Hy.
  assert (Hall : forallb
                   (fun k =>
                      match decimal_value (str_int (Z.of_N (N.of_nat k))) with
                      | Some v => (v =? N.of_nat k)%N
                      | None => false
                      end
                      && negb (String.prefix "0"
                                 (str_int (Z.of_N (N.of_nat k)))))
                   (seq (N.to_nat 1) (N.to_nat 9999)) = true)
    by (vm_compute; reflexivity).
  rewrite forallb_forall in Hall. specialize (Hall (N.to_nat y)).
  rewrite N2Nat.id in Hall.
  assert (Hin : In (N.to_nat y) (seq (N.to_nat 1) (N.to_nat 9999)))
    by (apply in_seq; lia).
  apply Hall in Hin. apply andb_true_iff in Hin as [Hv Hz].
  apply negb_true_iff in Hz. split; [|exact Hz].
  destruct (decimal_value (str_int (Z.of_N y))) as [v|]; [|discriminate].
  apply N.eqb_eq in Hv. now subst v.
Qed.

(** C10.  A date-time value is an instance of the date type: it is rendered
    as [(make-date Y M D)], where Y is the year in decimal without leading
    zeros and M and D are the month and the day on two digits; the time of
    day does not enter the result, which is that of the date of that
    day. *)
Theorem datetime_rendered_as_its_date :
  forall prefix parent_key y m d,
    (1 <= y <= 9999)%N -> (1 <= m <= 12)%N -> (1 <= d <= 31)%N ->
    exists Y M D,
      (decimal_value Y = Some y /\ String.prefix "0" Y = false)
      /\ (decimal_value M = Some m /\ String.length M = 2%nat)
      /\ (decimal_value D = Some d /\ String.length D = 2%nat)
      /\ forall hour minute second microsecond,
           convert prefix parent_key
             (VDateTime y m d hour minute second microsecond)
           = Ok ("(make-date " ++ Y ++ " " ++ M ++ " " ++ D ++ ")")
           /\ convert prefix parent_key
                (VDateTime y m d hour minute second microsecond)
              = convert prefix parent_key (VDate y m d).
Proof.
  intros prefix parent_key y m d Hy Hm Hd.
  exists (str_int (Z.of_N y)), (fmt_02d m), (fmt_02d d).
  split; [now apply year_text|].
  split; [apply month_day_text; lia|].
  split; [apply month_day_text; lia|].
  intros hour minute second microsecond. split; reflexivity.
Qed.

Lemma datetime_rendered_as_its_date_witness :
  exists Y M D,
    (decimal_value Y = Some 2001%N /\ String.prefix "0" Y = false)
    /\ (decimal_value M = Some 12%N /\ String.length M = 2%nat)
    /\ (decimal_value D = Some 14%N /\ String.length D = 2%nat)
    /\ forall hour minute second microsecond,
         convert "yaml" None
           (VDateTime 2001 12 14 hour minute second microsecond)
         = Ok ("(make-date " ++ Y ++ " " ++ M ++ " " ++ D ++ ")")
         /\ convert "yaml" None
              (VDateTime 2001 12 14 hour minute second microsecond)
            = convert "yaml" None (VDate 2001 12 14).
Proof.
  apply (datetime_rendered_as_its_date "yaml" None 2001 12 14); lia.
Defined.

Example convert_datetime :
  convert "yaml" None (VDateTime 2001 12 14 21 59 43 100000)
  = Ok "(make-date 2001 12 14)".
Proof. reflexivity. Qed.

(** *** Strings *)

Lemma escape_string_escaped s : escape_string s = escaped s.
Proof.
  unfold escape_string. induction s as [|c s IH]; [reflexivity|].
  cbn [replace_char escaped]. rewrite replace_char_app, IH. f_equal.
  unfold escape_char.
  destruct (Ascii.eqb_spec c backslash) as [->|Hb]; [reflexivity|].
  cbn [replace_char]. now destruct (c =? dquote)%char.
Qed.

Lemma placeholder_not_iso_date s :
  contains "{{" s = true -> is_iso_date s = false.
Proof.
  intros H. destruct (is_iso_date s) eqn:Hd; [|reflexivity].
  apply is_iso_date_chars in Hd.
  now pose proof (contains_all_chars _ _ _ H Hd).
Qed.

(** C5.  A string that contains both [{{] and [}}] is rendered between
    double quotes, each backslash doubled and each double quote preceded by
    a backslash, every other character as it is; the result is neither the
    quoted-symbol token nor a date construct. *)
Theorem placeholder_string_quoted :
  forall prefix parent_key s,
    contains "{{" s = true -> contains "}}" s = true ->
    convert prefix parent_key (VStr s) = Ok (DQ ++ escaped s ++ DQ)
    /\ convert prefix parent_key (VStr s) <> Ok ("'" ++ s)
    /\ forall y m d,
         convert prefix parent_key (VStr s)
         <> Ok ("(make-date " ++ y ++ " " ++ m ++ " " ++ d ++ ")").
Proof.
  intros prefix parent_key s Hopen Hclose.
  assert (H : convert prefix parent_key (VStr s)
              = Ok (DQ ++ escaped s ++ DQ)).
  { rewrite convert_string. unfold convert_str, quoted.
    rewrite (placeholder_not_iso_date _ Hopen), Hopen, Hclose.
    now rewrite escape_string_escaped. }
  rewrite H. repeat split; try intros y m d; discriminate.
Qed.

Lemma placeholder_string_quoted_witness :
  convert "yaml" None
    (VStr ("{{ " ++ DQ ++ "A4786" ++ BS ++ "2024-01-01" ++ DQ ++ " }}"))
  = Ok (DQ ++ "{{ " ++ BS ++ DQ ++ "A4786" ++ BS ++ BS ++ "2024-01-01"
        ++ BS ++ DQ ++ " }}" ++ DQ).
Proof.
  exact (proj1 (placeholder_string_quoted "yaml" None
                  ("{{ " ++ DQ ++ "A4786" ++ BS ++ "2024-01-01" ++ DQ
                   ++ " }}")
                  eq_refl eq_refl)).
Defined.

Lemma span_all p s : all_chars p s = true -> span p s = (s, "").
Proof.
  induction s as [|c s IH]; simpl; [reflexivity|].
  intros H. apply andb_true_iff in H as [Hc Hs]. now rewrite Hc, IH.
Qed.

Lemma has_digit_app a b : has_digit (a ++ b) = has_digit a || has_digit b.
Proof.
  induction a as [|c a IH]; simpl; [reflexivity|].
  now rewrite IH, orb_assoc.
Qed.

Lemma is_iso_date_has_digit s : is_iso_date s = true -> has_digit s = true.
Proof.
  intros H. apply is_iso_date_spec in H
    as (y & m & d & r & -> & (Ly & _) & (Ay & _) & _).
  rewrite has_digit_app. destruct y as [|c y]; [discriminate|].
  simpl in *. apply andb_true_iff in Ay as [-> _]. reflexivity.
Qed.

Lemma identifier_not_placeholder s :
  all_chars is_ident_char s = true -> contains "{{" s = false.
Proof.
  intros Hall. destruct (contains "{{" s) eqn:H; [|reflexivity].
  now pose proof (contains_all_chars _ _ _ H Hall).
Qed.

Lemma identifier_needs_no_escape s :
  all_chars is_ident_char s = true -> escape_string s = s.
Proof.
  intros Hall. unfold escape_string.
  rewrite (replace_char_absent backslash), (replace_char_absent dquote);
    try reflexivity;
    (eapply all_chars_weaken; [|exact Hall]); intros c Hc;
    match goal with |- negb (c =? ?x)%char = true =>
      destruct (Ascii.eqb_spec c x) as [->|]; [discriminate | reflexivity]
    end.
Qed.

(** C6.  A non-empty string made of characters of [[A-Za-z0-9_]] only and
    holding a digit is rendered as a quote followed by the text as it is; a
    string without a digit is rendered between double quotes. *)
Theorem symbolic_identifier_rendering :
  forall prefix parent_key s,
    (s <> "" -> all_chars is_ident_char s = true -> has_digit s = true ->
     convert prefix parent_key (VStr s) = Ok ("'" ++ s))
    /\ (has_digit s = false ->
        convert prefix parent_key (VStr s) = Ok (DQ ++ escape_string s ++ DQ))
    /\ (all_chars is_ident_char s = true -> has_digit s = false ->
        convert prefix parent_key (VStr s) = Ok (DQ ++ s ++ DQ)).
Proof.
  intros prefix parent_key s. rewrite convert_string. unfold convert_str.
  assert (Hplain : has_digit s = false ->
                   convert_str s = Ok (DQ ++ escape_string s ++ DQ)).
  { intros Hno. unfold convert_str.
    destruct (is_iso_date s) eqn:Hd.
    - apply is_iso_date_has_digit in Hd. congruence.
    - unfold is_symbolic_identifier. rewrite Hno, andb_false_r.
      now destruct (contains "{{" s && contains "}}" s). }
  split; [|split].
  - intros Hne Hall Hdig.
    rewrite (is_iso_date_not_identifier _ Hall).
    rewrite (identifier_not_placeholder _ Hall). cbn [andb].
    unfold is_symbolic_identifier, match_identifier.
    rewrite (span_all _ _ Hall), Hdig.
    destruct s as [|c s]; [contradiction | reflexivity].
  - exact Hplain.
  - intros Hall Hno. fold (convert_str s). rewrite (Hplain Hno).
    now rewrite (identifier_needs_no_escape _ Hall).
Qed.

Lemma symbolic_identifier_rendering_witness :
  convert "yaml" None (VStr "ABC123") = Ok "'ABC123"
  /\ convert "yaml" None (VStr "ABC") = Ok (DQ ++ "ABC" ++ DQ).
Proof.
  split.
  - apply (proj1 (symbolic_identifier_rendering "yaml" None "ABC123"));
      [discriminate | reflexivity | reflexivity].
  - apply (proj2 (proj2 (symbolic_identifier_rendering "yaml" None "ABC")));
      reflexivity.
Defined.

(** C7.  A string that is not taken as a date, a placeholder or a symbol is
    rendered between double quotes, each backslash doubled and each double
    quote preceded by a backslash, every other character (a newline
    included) as it is. *)
Theorem plain_string_escaped :
  forall prefix parent_key s,
    is_iso_date s = false ->
    contains "{{" s && contains "}}" s = false ->
    is_symbolic_identifier s = false ->
    convert prefix parent_key (VStr s) = Ok (DQ ++ escaped s ++ DQ).
Proof.
  intros prefix parent_key s Hdate Hph Hsym.
  rewrite convert_string. unfold convert_str, quoted.
  now rewrite Hdate, Hph, Hsym, escape_string_escaped.
Qed.

Lemma plain_string_escaped_witness :
  convert "yaml" None (VStr ("a" ++ BS ++ "b" ++ DQ ++ "c" ++ NL ++ "d"))
  = Ok (DQ ++ "a" ++ BS ++ BS ++ "b" ++ BS ++ DQ ++ "c" ++ NL ++ "d" ++ DQ).
Proof.
  exact (plain_string_escaped "yaml" None
           ("a" ++ BS ++ "b" ++ DQ ++ "c" ++ NL ++ "d")
           eq_refl eq_refl eq_refl).
Defined.

(** ** Loader and driver *)

Section DriverFacts.

Variable safe_load_all : string -> res (list value).
Variable suffix : string -> string.

Lemma wrap_docs_total docs : exists ps, wrap_docs docs = Ok ps.
Proof.
  induction docs as [|doc tl [ps IH]]; simpl; [eauto|].
  destruct (convert_total "yaml" doc None) as [e ->]. rewrite IH. eauto.
Qed.

Lemma top_level_total data : exists sexpr, top_level data = Ok sexpr.
Proof.
  assert (H : exists sexpr,
             (do e <- convert "yaml" None data; Ok ("(" ++ e ++ ")"))
             = Ok sexpr).
  { destruct (convert_total "yaml" data None) as [e ->]. eauto. }
  destruct data; try exact H. simpl.
  destruct (forallb is_dict elems); [|exact H].
  destruct (wrap_docs_total elems) as [ps ->]. eauto.
Qed.

(** On either way to the parser the loader hands it the text, after the
    substitution when that is enabled, and returns the documents. *)
Lemma load_data_parsed fs env input_file fmt enable_env raw :
  fs input_file = Ok raw ->
  parsed_as_yaml suffix input_file fmt ->
  load_data safe_load_all suffix fs env input_file fmt enable_env =
  do docs <- safe_load_all
               (if enable_env then substitute_env_variables env raw else raw);
  loaded docs.
Proof.
  intros Hfile Hfmt. unfold load_data, loaded. rewrite Hfile.
  destruct Hfmt as [-> | [-> [-> | ->]]]; reflexivity.
Qed.

(** C1 (the code differs).  With the hint [json] the loader reads the file
    and then raises the unsupported-format error, whatever the file holds;
    the parser is not reached and the run ends without output. *)
Theorem json_hint_is_rejected :
  forall fs env input_file raw enable_env,
    fs input_file = Ok raw ->
    load_data safe_load_all suffix fs env input_file (Some json) enable_env
    = Err UnsupportedFormat
    /\ forall a w,
         files w = fs ->
         input a = input_file -> format_hint a = Some json ->
         env_flag a = enable_env ->
         main safe_load_all suffix a env w = (Err UnsupportedFormat, w).
Proof.
  intros fs env input_file raw enable_env Hfile.
  assert (H : load_data safe_load_all suffix fs env input_file (Some json)
                enable_env
              = Err UnsupportedFormat).
  { unfold load_data. now rewrite Hfile. }
  split; [exact H|].
  intros a w Hfs Hin Hfmt Henv. unfold main.
  rewrite Hfs, Hin, Hfmt, Henv. now rewrite H.
Qed.

(** the output step leaves every file but the output file as it was, and
    the output file with the text or with a part of it from the start *)
Lemma write_file_effect w path text r w' :
  write_file w path text = (r, w') ->
  w' = w
  \/ exists n,
       w' = set_file w path (substring 0 n text)
       /\ (r = Ok tt -> w' = set_file w path text).
Proof.
  unfold write_file. destruct (on_write w path) as [|e|e n];
    intros [= <- <-].
  - right. exists (String.length text). split; [|reflexivity].
    f_equal. clear. induction text as [|c t IH]; [reflexivity|].
    simpl. now rewrite <- IH.
  - now left.
  - right. exists n. split; [reflexivity | discriminate].
Qed.

Lemma print_files w text r w' :
  print w text = (r, w') -> files w' = files w.
Proof.
  unfold print. now destruct (on_print w); intros [= <- <-].
Qed.


End DriverFacts.

Lemma json_hint_is_rejected_witness :
  load_data sample_parser sample_suffix sample_files sample_environ
    "data.json" (Some json) false
  = Err UnsupportedFormat
  /\ main sample_parser sample_suffix (sample_args "data.json" (Some json))
       sample_environ sample_world
     = (Err UnsupportedFormat, sample_world).
Proof.
  destruct (json_hint_is_rejected sample_parser sample_suffix sample_files
              sample_environ "data.json" sample_json false eq_refl)
    as [Hload Hmain].
  split; [exact Hload|].
  exact (Hmain (sample_args "data.json" (Some json)) sample_world
           eq_refl eq_refl eq_refl eq_refl).
Defined.

(** the same file loads under the hint [yaml] *)
Example yaml_hint_loads_json_text :
  load_data sample_parser sample_suffix sample_files sample_environ
    "data.json" (Some yaml) false
  = Ok (VDict [(KText "a", VInt 1)]).
Proof. reflexivity. Qed.


Example successful_run_writes_whole_text :
  files (snd (main sample_parser sample_suffix (sample_args "conf.yaml" None)
                sample_environ sample_world)) "out.sexpr"
  = Ok "((yaml:a 1))".
Proof. reflexivity. Qed.

(** the writing itself may raise: the run then ends with an error and the
    output file is left empty *)
Example failed_write_leaves_empty_file :
  main sample_parser sample_suffix (sample_args "conf.yaml" None)
    sample_environ full_disk_world
  = (Err OSError, set_file full_disk_world "out.sexpr" "").
Proof. reflexivity. Qed.

(** *** Environment substitution *)

Lemma span_append p s : fst (span p s) ++ snd (span p s) = s.
Proof.
  induction s as [|c s IH]; simpl; [reflexivity|].
  destruct (p c); [|reflexivity].
  destruct (span p s) as [a b]. simpl in *. now rewrite IH.
Qed.

(** a run of characters of the class, then a character outside it *)
Lemma span_stop p a c x :
  all_chars p a = true -> p c = false ->
  span p (a ++ String c x) = (a, String c x).
Proof.
  intros Ha Hc. induction a as [|b a IH]; simpl.
  - now rewrite Hc.
  - simpl in Ha. apply andb_true_iff in Ha as [Hb Ha].
    now rewrite Hb, (IH Ha).
Qed.

(** appending text that starts outside the class does not move the cut *)
Lemma span_extend p s c x :
  p c = false ->
  span p (s ++ String c x) = (fst (span p s), snd (span p s) ++ String c x).
Proof.
  intros Hc. induction s as [|b s IH]; simpl.
  - now rewrite Hc.
  - destruct (p b); [|reflexivity].
    rewrite IH. now destruct (span p s).
Qed.

Lemma match_var_shape s name rest :
  match_var s = Some (name, rest) ->
  s = "${" ++ name ++ "}" ++ rest /\ is_name name = true.
Proof.
  unfold match_var.
  destruct (lit "$" s) as [r1|] eqn:H1; [|discriminate]. cbn [obind].
  destruct (lit "{" r1) as [r2|] eqn:H2; [|discriminate]. cbn [obind].
  apply lit_spec in H1 as ->. apply lit_spec in H2 as ->.
  pose proof (span_append is_word r2) as Happ.
  assert (Hall : all_chars is_word (fst (span is_word r2)) = true).
  { clear. induction r2 as [|c r IH]; simpl; [reflexivity|].
    destruct (is_word c) eqn:Hc; [|reflexivity].
    destruct (span is_word r). simpl in *. now rewrite Hc, IH. }
  destruct (span is_word r2) as [[|c n] r3]; [discriminate|].
  destruct (lit "}" r3) as [r4|] eqn:H4; [|discriminate]. cbn [obind].
  apply lit_spec in H4 as ->. intros [= <- <-].
  simpl in Happ. split; [now rewrite <- Happ | exact Hall].
Qed.

Lemma match_var_ref name post :
  is_name name = true ->
  match_var ("${" ++ name ++ "}" ++ post) = Some (name, post).
Proof.
  intros Hname. unfold match_var. cbn [append lit obind].
  rewrite Ascii.eqb_refl. cbn [lit obind].
  rewrite Ascii.eqb_refl. cbn [obind].
  destruct name as [|c n]; [discriminate|].
  rewrite span_stop by (exact Hname || reflexivity).
  cbn [lit]. now rewrite Ascii.eqb_refl.
Qed.

(** text that does not start with a match does not start with one when a
    dollar sign and more text follow it *)
Lemma match_var_none_extend c r x :
  match_var (String c r) = None ->
  match_var (String c r ++ String "$" x) = None.
Proof.
  unfold match_var. cbn [append lit].
  destruct (c =? "$")%char; [|reflexivity]. cbn [obind].
  destruct r as [|c2 r2]; [reflexivity|]. cbn [append lit].
  destruct (c2 =? "{")%char; [|reflexivity]. cbn [obind].
  rewrite span_extend by reflexivity.
  destruct (span is_word r2) as [[|a n] r3]; [reflexivity|]. cbn [fst snd].
  destruct r3 as [|c3 r3]; [reflexivity|]. cbn [append lit].
  now destruct (c3 =? "}")%char.
Qed.

Lemma match_var_shorter s name rest :
  match_var s = Some (name, rest) ->
  (String.length rest < String.length s)%nat.
Proof.
  intros H. apply match_var_shape in H as [-> _].
  rewrite !length_append. simpl. lia.
Qed.

(** Any fuel from the length of the text on gives the same result. *)
Lemma sub_from_fuel env n m s :
  (String.length s <= n)%nat -> (String.length s <= m)%nat ->
  sub_from n env s = sub_from m env s.
Proof.
  revert m s. induction n as [|n IH]; intros m s Hn Hm.
  - destruct s; [|simpl in Hn; lia]. now destruct m.
  - destruct m as [|m]; [destruct s; [reflexivity | simpl in Hm; lia]|].
    destruct s as [|c r]; [reflexivity|]. cbn [sub_from].
    destruct (match_var (String c r)) as [[name rest]|] eqn:Hm1.
    + apply match_var_shorter in Hm1. simpl in *.
      f_equal. apply IH; lia.
    + simpl in *. f_equal. apply IH; lia.
Qed.

Lemma substitute_nil env : substitute_env_variables env "" = "".
Proof. reflexivity. Qed.

Lemma substitute_match env s name rest :
  match_var s = Some (name, rest) ->
  substitute_env_variables env s
  = environ_get env name ++ substitute_env_variables env rest.
Proof.
  intros H. unfold substitute_env_variables.
  pose proof (match_var_shorter _ _ _ H) as Hlt.
  destruct s as [|c r]; [discriminate|].
  cbn [String.length sub_from]. rewrite H. f_equal.
  apply sub_from_fuel; simpl in *; lia.
Qed.

Lemma substitute_copy env c r :
  match_var (String c r) = None ->
  substitute_env_variables env (String c r)
  = String c (substitute_env_variables env r).
Proof.
  intros H. unfold substitute_env_variables.
  cbn [String.length sub_from]. now rewrite H.
Qed.

Lemma substitute_ref_free env t :
  ref_free t = true -> substitute_env_variables env t = t.
Proof.
  induction t as [|c r IH]; [reflexivity|]. cbn [ref_free].
  destruct (match_var (String c r)) eqn:Hm; [discriminate|].
  intros Hr. now rewrite substitute_copy, IH.
Qed.

Lemma substitute_ref env pre name post :
  ref_free pre = true -> is_name name = true ->
  substitute_env_variables env (pre ++ "${" ++ name ++ "}" ++ post)
  = pre ++ environ_get env name ++ substitute_env_variables env post.
Proof.
  intros Hpre Hname. induction pre as [|c r IH].
  - cbn [append].
    exact (substitute_match env _ _ _ (match_var_ref _ post Hname)).
  - cbn [ref_free] in Hpre.
    destruct (match_var (String c r)) eqn:Hm; [discriminate|].
    change ((String c r ++ "${" ++ name ++ "}" ++ post))
      with (String c (r ++ "${" ++ name ++ "}" ++ post)).
    rewrite substitute_copy.
    + now rewrite (IH Hpre).
    + exact (match_var_none_extend c r _ Hm).
Qed.

Lemma substitute_raw_text env refs tail :
  well_cut refs tail = true ->
  substitute_env_variables env (raw_text refs tail) = expanded env refs tail.
Proof.
  unfold well_cut. intros H. apply andb_true_iff in H as [Hrefs Htail].
  induction refs as [|[pre name] refs IH];
    cbn [raw_text expanded fold_right forallb fst snd] in *.
  - now apply substitute_ref_free.
  - apply andb_true_iff in Hrefs as [Hpn Hrefs].
    apply andb_true_iff in Hpn as [Hpre Hname].
    rewrite substitute_ref by assumption.
    fold (raw_text refs tail). now rewrite (IH Hrefs).
Qed.

Lemma match_var_some_extend u y name rest :
  match_var u = Some (name, rest) ->
  match_var (u ++ y) = Some (name, rest ++ y).
Proof.
  intros H. apply match_var_shape in H as [-> Hname].
  change (("${" ++ name ++ "}" ++ rest) ++ y)
    with ("${" ++ (name ++ "}" ++ rest) ++ y).
  rewrite append_assoc.
  change (("}" ++ rest) ++ y) with ("}" ++ rest ++ y).
  now apply match_var_ref.
Qed.

(** Every text is cut at its references in this way. *)
Lemma every_text_is_cut s :
  exists refs tail, well_cut refs tail = true /\ raw_text refs tail = s.
Proof.
  remember (String.length s) as n eqn:Hn.
  assert (Hle : (String.length s <= n)%nat) by lia. clear Hn.
  revert s Hle. induction n as [|n IH]; intros s Hle.
  - destruct s; [|simpl in Hle; lia]. now exists [], "".
  - destruct s as [|c r]; [now exists [], ""|].
    destruct (match_var (String c r)) as [[name rest]|] eqn:Hm.
    + pose proof (match_var_shorter _ _ _ Hm) as Hlt.
      destruct (match_var_shape _ _ _ Hm) as [Hs Hname].
      destruct (IH rest) as (refs & tail & Hcut & Hraw);
        [simpl in *; lia|].
      exists (("", name) :: refs), tail. split.
      * unfold well_cut in *. simpl. now rewrite Hname.
      * simpl. now rewrite Hraw, Hs.
    + destruct (IH r) as (refs & tail & Hcut & Hraw); [simpl in *; lia|].
      destruct refs as [|[pre name] refs].
      * exists [], (String c tail). simpl in *. subst r. split; [|reflexivity].
        unfold well_cut in *. simpl in *. now rewrite Hm.
      * exists ((String c pre, name) :: refs), tail. split.
        -- unfold well_cut in *. simpl in *.
           destruct (match_var (String c pre)) as [[n0 r0]|] eqn:Hp.
           ++ apply (match_var_some_extend _
                       ("${" ++ name ++ "}" ++ raw_text refs tail)) in Hp.
              simpl in Hp. rewrite <- Hraw in Hm. simpl in Hm. congruence.
           ++ exact Hcut.
        -- simpl in *. now rewrite Hraw.
Qed.

Lemma ref_free_ref pre name post :
  is_name name = true ->
  ref_free (pre ++ "${" ++ name ++ "}" ++ post) = false.
Proof.
  intros Hname. induction pre as [|c r IH].
  - change (ref_free ("${" ++ name ++ "}" ++ post) = false).
    pose proof (match_var_ref name post Hname) as Hm.
    remember ("${" ++ name ++ "}" ++ post) as t eqn:Ht.
    destruct t as [|a t']; [discriminate Ht|].
    cbn [ref_free]. now rewrite Hm.
  - change (String c r ++ "${" ++ name ++ "}" ++ post)
      with (String c (r ++ "${" ++ name ++ "}" ++ post)).
    cbn [ref_free]. rewrite IH.
    now destruct (match_var (String c (r ++ "${" ++ name ++ "}" ++ post))).
Qed.

(** The scan of the code finds a reference exactly where the text holds
    one. *)
Lemma ref_free_no_reference t : ref_free t = true <-> no_reference t.
Proof.
  split.
  - intros Hfree pre name post Hname ->.
    now rewrite (ref_free_ref pre name post Hname) in Hfree.
  - induction t as [|c r IH]; [reflexivity|]. intros Hno.
    cbn [ref_free].
    destruct (match_var (String c r)) as [[name rest]|] eqn:Hm.
    + apply match_var_shape in Hm as [Hs Hname].
      now contradiction (Hno "" name rest Hname).
    + apply IH. intros pre name post Hname ->.
      now contradiction (Hno (String c pre) name post Hname).
Qed.

(** C8.  With substitution enabled the text is rewritten before it is
    parsed: each reference [${NAME}], for a name of one or more word
    characters, is replaced by the value of [NAME], or by nothing when
    [NAME] is not set; the text around the references, which holds none, is
    as it was; and the parser is given the rewritten text and no other. *)
Theorem references_replaced_before_parsing :
  forall safe_load_all suffix env fs input_file fmt refs tail,
    Forall (fun pn => no_reference (fst pn) /\ is_name (snd pn) = true) refs ->
    no_reference tail ->
    fs input_file = Ok (raw_text refs tail) ->
    parsed_as_yaml suffix input_file fmt ->
    substitute_env_variables env (raw_text refs tail) = expanded env refs tail
    /\ load_data safe_load_all suffix fs env input_file fmt true
       = match safe_load_all (expanded env refs tail) with
         | Ok docs => loaded docs
         | Err e => Err e
         end.
Proof.
  intros safe_load_all suffix env fs input_file fmt refs tail
    Hrefs Htail Hfile Hfmt.
  assert (Hcut : well_cut refs tail = true).
  { unfold well_cut. apply andb_true_iff. split.
    - apply forallb_forall. intros pn Hin.
      rewrite Forall_forall in Hrefs. destruct (Hrefs pn Hin) as [Hp Hn].
      apply ref_free_no_reference in Hp. now rewrite Hp, Hn.
    - now apply ref_free_no_reference. }
  pose proof (substitute_raw_text env refs tail Hcut) as Hsub.
  split; [exact Hsub|].
  rewrite (load_data_parsed safe_load_all suffix fs env input_file fmt true
             _ Hfile Hfmt).
  now rewrite Hsub.
Qed.

Lemma references_replaced_before_parsing_witness :
  substitute_env_variables sample_environ "home: ${HOME}, user: ${USER}."
  = "home: /root, user: ."
  /\ load_data home_parser sample_suffix sample_files sample_environ
       "conf.yaml" None true
     = Ok (VDict [(KText "home", VStr "/root, user: .")]).
Proof.
  apply (references_replaced_before_parsing home_parser sample_suffix
           sample_environ sample_files "conf.yaml" None
           [("home: ", "HOME"); (", user: ", "USER")] ".").
  - repeat constructor; now apply ref_free_no_reference.
  - now apply ref_free_no_reference.
  - reflexivity.
  - right. split; [reflexivity | now left].
Defined.

(** without the flag the parser is given the text as it is in the file,
    which the sample parser does not know *)
Example references_kept_without_flag :
  load_data home_parser sample_suffix sample_files sample_environ
    "conf.yaml" None false
  = Err YAMLError.
Proof. reflexivity. Qed.

Example substitution_leaves_other_text :
  substitute_env_variables sample_environ "a$b ${} ${A-B} ${${HOME}} $"
  = "a$b ${} ${A-B} ${/root} $".
Proof. reflexivity. Qed.

(** ** The pretty printer *)

Lemma lstrip_idem s : lstrip (lstrip s) = lstrip s.
Proof.
  induction s as [|c s IH]; simpl; [reflexivity|].
  destruct (is_space c) eqn:Hc; [exact IH|]. simpl. now rewrite Hc.
Qed.

Lemma rstrip_idem s : rstrip (rstrip s) = rstrip s.
Proof.
  induction s as [|c s IH]; simpl; [reflexivity|].
  destruct (rstrip s) as [|a b] eqn:E.
  - destruct (is_space c) eqn:Hc; simpl; [reflexivity | now rewrite Hc].
  - change (rstrip (String c (String a b)))
      with (match rstrip (String a b) with
            | EmptyString => if is_space c then "" else String c ""
            | r' => String c r'
            end).
    now rewrite IH.
Qed.

Lemma rstrip_lstrip s : rstrip s = s -> rstrip (lstrip s) = lstrip s.
Proof.
  induction s as [|c s IH]; [reflexivity|].
  intros H. cbn [lstrip]. destruct (is_space c) eqn:Hc; [|exact H].
  apply IH. simpl in H. rewrite Hc in H.
  destruct (rstrip s); [discriminate | now injection H].
Qed.

Lemma strip_rstrip s : rstrip (strip s) = strip s.
Proof. apply rstrip_lstrip, rstrip_idem. Qed.

Lemma strip_lstrip s : lstrip (strip s) = strip s.
Proof. apply lstrip_idem. Qed.

Lemma rstrip_snoc x c :
  is_space c = false -> rstrip (x ++ String c "") = x ++ String c "".
Proof.
  intros Hc. induction x as [|a x IH]; simpl.
  - now rewrite Hc.
  - rewrite IH. now destruct x.
Qed.

Lemma all_chars_lstrip p s :
  all_chars p s = true -> all_chars p (lstrip s) = true.
Proof.
  induction s as [|c s IH]; simpl; [reflexivity|].
  intros H. destruct (is_space c); [|exact H].
  apply andb_true_iff in H as [_ H]. now apply IH.
Qed.

Lemma all_chars_rstrip p s :
  all_chars p s = true -> all_chars p (rstrip s) = true.
Proof.
  induction s as [|c s IH]; simpl; [reflexivity|].
  intros H. apply andb_true_iff in H as [Hc Hs]. specialize (IH Hs).
  destruct (rstrip s).
  - destruct (is_space c); simpl; [reflexivity | now rewrite Hc].
  - cbn [all_chars] in *. now rewrite Hc, IH.
Qed.

Lemma flushed_flat t :
  all_chars flat_char t = true -> all_chars flat_char (flushed t) = true.
Proof.
  intros H. unfold flushed.
  pose proof (all_chars_lstrip _ _ (all_chars_rstrip _ _ H)) as Hs.
  fold (strip t) in Hs. now destruct (strip t).
Qed.

Lemma flushed_idem t : flushed (flushed t) = flushed t.
Proof.
  unfold flushed at 2. unfold flushed at 2.
  pose proof (strip_rstrip t) as Hr. pose proof (strip_lstrip t) as Hl.
  destruct (strip t) as [|a u] eqn:E; [reflexivity|].
  unfold flushed, strip.
  change (rstrip (" " ++ String a u))
    with (match rstrip (String a u) with
          | EmptyString => if is_space " " then "" else " "
          | r' => String " " r'
          end).
  rewrite Hr.
  change (lstrip (String " " (String a u))) with (lstrip (String a u)).
  now rewrite Hl.
Qed.

Lemma pp_run_app indent st a b :
  pp_run indent st (a ++ b) = pp_run indent (pp_run indent st a) b.
Proof. revert st. induction a as [|c a IH]; intros st; simpl; auto. Qed.

Lemma pp_run_flat indent t :
  all_chars flat_char t = true ->
  forall st,
    pp_run indent st t
    = {| result := result st; depth := depth st; token := token st ++ t |}.
Proof.
  induction t as [|c t IH]; simpl; intros H st.
  - rewrite append_nil_r. now destruct st.
  - apply andb_true_iff in H as [Hc Ht]. rewrite (IH Ht).
    unfold flat_char in Hc.
    apply andb_true_iff in Hc as [Hc Hnl].
    apply andb_true_iff in Hc as [Hop Hcl].
    apply negb_true_iff in Hop, Hcl, Hnl.
    unfold pp_step. rewrite Hop, Hcl, Hnl. cbn [result depth token].
    now rewrite append_assoc.
Qed.

Lemma rstrip_blank s : rstrip s = "" <-> all_chars is_space s = true.
Proof.
  induction s as [|c s IH]; simpl; [tauto|].
  destruct (rstrip s) as [|a b].
  - destruct (is_space c); simpl; [tauto|].
    split; discriminate.
  - split; [discriminate|]. intros H. apply andb_true_iff in H as [_ H].
    now apply IH in H.
Qed.

Lemma lstrip_blank s : lstrip s = "" -> all_chars is_space s = true.
Proof.
  induction s as [|c s IH]; simpl; [reflexivity|].
  destruct (is_space c); [exact IH | discriminate].
Qed.

Lemma strip_blank s : strip s = "" <-> all_chars is_space s = true.
Proof.
  split.
  - intros H. apply rstrip_blank.
    pose proof (rstrip_idem s) as Hi.
    unfold strip in H. apply lstrip_blank, rstrip_blank in H. congruence.
  - intros H. apply rstrip_blank in H. unfold strip. now rewrite H.
Qed.

Lemma rstrip_app k x :
  rstrip (k ++ x) = match rstrip x with
                    | EmptyString => rstrip k
                    | r => k ++ r
                    end.
Proof.
  induction k as [|c k IH].
  - simpl. now destruct (rstrip x).
  - change (rstrip (String c k ++ x))
      with (match rstrip (k ++ x) with
            | EmptyString => if is_space c then "" else String c ""
            | r' => String c r'
            end).
    rewrite IH. destruct (rstrip x) as [|a b]; [reflexivity|].
    now destruct k.
Qed.

Lemma lstrip_app_blank k x :
  all_chars is_space k = true -> lstrip (k ++ x) = lstrip x.
Proof.
  induction k as [|c k IH]; simpl; [reflexivity|].
  intros H. apply andb_true_iff in H as [Hc Hk]. now rewrite Hc, IH.
Qed.

(** blank text in front of a token does not change what is flushed *)
Lemma strip_app_blank k x :
  all_chars is_space k = true -> strip (k ++ x) = strip x.
Proof.
  intros Hk. unfold strip. rewrite rstrip_app.
  destruct (rstrip x) as [|a b].
  - apply rstrip_blank in Hk. now rewrite Hk.
  - now apply lstrip_app_blank.
Qed.

Lemma strip_idem s : strip (strip s) = strip s.
Proof. unfold strip at 1. now rewrite strip_rstrip, strip_lstrip. Qed.

Lemma strip_flushed l : strip (flushed l) = strip l.
Proof.
  unfold flushed. pose proof (strip_idem l) as Hi.
  destruct (strip l) as [|a u] eqn:E; [reflexivity|].
  now rewrite (strip_app_blank " ").
Qed.

Lemma flushed_app_blank k l :
  all_chars is_space k = true -> flushed (k ++ flushed l) = flushed l.
Proof.
  intros Hk. unfold flushed at 1.
  rewrite (strip_app_blank _ _ Hk), strip_flushed. reflexivity.
Qed.

Lemma spaces_blank n : all_chars is_space (spaces n) = true.
Proof.
  unfold spaces. induction (Z.to_nat n) as [|m IH]; simpl; auto.
Qed.

Lemma spaces_flat n : all_chars flat_char (spaces n) = true.
Proof.
  unfold spaces. induction (Z.to_nat n) as [|m IH]; simpl; auto.
Qed.

Lemma concat_empty_snoc R x :
  String.concat "" (R ++ [x]) = String.concat "" R ++ x.
Proof.
  induction R as [|a R IH]; [reflexivity|].
  change (String.concat "" ((a :: R) ++ [x]))
    with (String.concat "" (a :: (R ++ [x]))).
  destruct R as [|b R].
  - reflexivity.
  - change (String.concat "" (a :: (b :: R) ++ [x]))
      with (a ++ "" ++ String.concat "" ((b :: R) ++ [x])).
    rewrite IH.
    change (String.concat "" (a :: b :: R))
      with (a ++ "" ++ String.concat "" (b :: R)).
    now rewrite !append_assoc.
Qed.

Lemma pp_step_close indent st :
  pp_step indent st ")" =
  let st' := flush " " st in
  {| result := result st' ++ [")"]; depth := depth st' - 1;
     token := token st' |}.
Proof. reflexivity. Qed.

Lemma pp_step_newline indent st :
  pp_step indent st nl =
  let st' := flush " " st in
  {| result := result st' ++ [NL ++ spaces (depth st' * indent)];
     depth := depth st'; token := token st' |}.
Proof. reflexivity. Qed.

(** flushing a token that follows blank text *)
Lemma flush_token R d k l :
  all_chars is_space k = true ->
  let st' := flush " " {| result := R; depth := d; token := k ++ l |} in
  joined st' = String.concat "" R ++ flushed l
  /\ depth st' = d
  /\ all_chars is_space (token st') = true.
Proof.
  intros Hk. unfold flush, flushed. cbn [token result depth].
  rewrite (strip_app_blank _ _ Hk).
  destruct (strip l) as [|a u] eqn:E.
  - cbn zeta. unfold joined. cbn [result depth token].
    rewrite append_nil_r, all_chars_app, Hk.
    apply strip_blank in E. now rewrite E.
  - cbn zeta. unfold joined. cbn [result depth token].
    now rewrite concat_empty_snoc.
Qed.

(** The lines of a form without inner parentheses: what the loop emits from
    a state whose pending token is blank. *)
Lemma pp_run_lines indent ls :
  forall l0 st,
    all_chars is_space (token st) = true ->
    all_chars flat_char l0 = true ->
    forallb (all_chars flat_char) ls = true ->
    joined (pp_run indent st (String.concat NL (l0 :: ls) ++ ")"))
    = joined st ++ flushed l0 ++ continued (depth st * indent) ls ++ ")".
Proof.
  induction ls as [|l1 ls IH]; intros l0 st Hk Hl0 Hls.
  - cbn [String.concat continued]. rewrite pp_run_app, (pp_run_flat _ _ Hl0).
    cbn [pp_run]. rewrite pp_step_close.
    destruct (flush_token (result st) (depth st) (token st) l0 Hk)
      as (Hj & _ & _).
    cbn zeta in *. unfold joined in *. cbn [result].
    now rewrite concat_empty_snoc, Hj, append_assoc.
  - change (String.concat NL (l0 :: l1 :: ls))
      with (l0 ++ NL ++ String.concat NL (l1 :: ls)).
    rewrite !append_assoc, pp_run_app, (pp_run_flat _ _ Hl0).
    change (NL ++ String.concat NL (l1 :: ls) ++ ")")
      with (String nl (String.concat NL (l1 :: ls) ++ ")")).
    cbn [pp_run]. rewrite pp_step_newline.
    destruct (flush_token (result st) (depth st) (token st) l0 Hk)
      as (Hj & Hd & Ht).
    cbn zeta in *.
    cbn [forallb] in Hls. apply andb_true_iff in Hls as [Hl1 Hls].
    rewrite IH by assumption.
    unfold joined in *. cbn [result depth].
    rewrite concat_empty_snoc, Hj, Hd. cbn [continued].
    now rewrite !append_assoc.
Qed.

(** A form without inner parentheses, line by line: the first token behind
    the opening parenthesis, every further one on a line of its own. *)
Lemma format_sexpr_lines indent l0 ls :
  all_chars flat_char l0 = true ->
  forallb (all_chars flat_char) ls = true ->
  format_sexpr ("(" ++ String.concat NL (l0 :: ls) ++ ")") indent
  = "(" ++ flushed l0 ++ continued indent ls ++ ")".
Proof.
  intros Hl0 Hls. unfold format_sexpr.
  change ("(" ++ String.concat NL (l0 :: ls) ++ ")")
    with (String "(" (String.concat NL (l0 :: ls) ++ ")")).
  cbn [pp_run].
  assert (Hstep : pp_step indent pp_init "("
                  = {| result := [String nl "("]; depth := 1; token := "" |})
    by reflexivity.
  rewrite Hstep. fold (joined (pp_run indent
    {| result := [String nl "("]; depth := 1; token := "" |}
    (String.concat NL (l0 :: ls) ++ ")"))).
  rewrite pp_run_lines by (assumption || reflexivity).
  cbn [depth]. rewrite Z.mul_1_l.
  change (joined {| result := [String nl "("]; depth := 1; token := "" |})
    with (String nl "(").
  unfold strip.
  replace (String nl "(" ++ flushed l0 ++ continued indent ls ++ ")")
    with ((String nl "(" ++ flushed l0 ++ continued indent ls) ++ ")")
    by now rewrite !append_assoc.
  rewrite rstrip_snoc by reflexivity.
  cbn [append lstrip]. change (is_space nl) with true.
  change (is_space "(") with false. cbv iota.
  now rewrite !append_assoc.
Qed.

Example format_sexpr_two_lines :
  format_sexpr ("(a b" ++ NL ++ " c)") 2 = "( a b" ++ NL ++ "   c)".
Proof. reflexivity. Qed.

Lemma continued_concat n ls :
  forall x,
    x ++ continued n ls
    = String.concat NL (x :: map (fun l => spaces n ++ flushed l) ls).
Proof.
  induction ls as [|l r IH]; intros x.
  - apply append_nil_r.
  - cbn [map continued].
    change (String.concat NL (x :: (spaces n ++ flushed l)
                                :: map (fun l => spaces n ++ flushed l) r))
      with (x ++ NL ++ String.concat NL
              ((spaces n ++ flushed l)
                 :: map (fun l => spaces n ++ flushed l) r)).
    now rewrite <- IH, !append_assoc.
Qed.

Lemma continued_again n ls :
  continued n (map (fun l => spaces n ++ flushed l) ls) = continued n ls.
Proof.
  induction ls as [|l r IH]; [reflexivity|].
  cbn [map continued].
  now rewrite (flushed_app_blank _ _ (spaces_blank n)), IH.
Qed.

Lemma continued_flat n ls :
  forallb (all_chars flat_char) ls = true ->
  forallb (all_chars flat_char) (map (fun l => spaces n ++ flushed l) ls)
  = true.
Proof.
  induction ls as [|l r IH]; [reflexivity|]. cbn [map forallb].
  intros H. apply andb_true_iff in H as [Hl Hr].
  now rewrite all_chars_app, spaces_flat, (flushed_flat _ Hl), (IH Hr).
Qed.

Lemma format_sexpr_idempotent_lines indent l0 ls :
  all_chars flat_char l0 = true ->
  forallb (all_chars flat_char) ls = true ->
  let form := "(" ++ String.concat NL (l0 :: ls) ++ ")" in
  format_sexpr (format_sexpr form indent) indent = format_sexpr form indent.
Proof.
  intros Hl0 Hls form. unfold form.
  rewrite (format_sexpr_lines indent l0 ls Hl0 Hls).
  rewrite <- (append_assoc (flushed l0)), continued_concat.
  rewrite (format_sexpr_lines indent _ _ (flushed_flat l0 Hl0)
             (continued_flat indent ls Hls)).
  rewrite flushed_idem, continued_again.
  now rewrite <- continued_concat, append_assoc.
Qed.

Lemma split_char_cons sep t : exists l0 ls, split_char sep t = l0 :: ls.
Proof.
  induction t as [|c r (l0 & ls & IH)]; simpl; [eauto|].
  destruct (c =? sep)%char; [eauto|]. rewrite IH. eauto.
Qed.

Lemma concat_split_char sep t :
  String.concat (String sep "") (split_char sep t) = t.
Proof.
  induction t as [|c r IH]; [reflexivity|]. cbn [split_char].
  destruct (split_char_cons sep r) as (l0 & ls & E). rewrite E in *.
  destruct (Ascii.eqb_spec c sep) as [->|].
  - change (String.concat (String sep "") ("" :: l0 :: ls))
      with (String sep (String.concat (String sep "") (l0 :: ls))).
    now rewrite IH.
  - rewrite <- IH. now destruct ls.
Qed.

Lemma split_char_flat t :
  all_chars no_paren t = true ->
  forallb (all_chars flat_char) (split_char nl t) = true.
Proof.
  induction t as [|c r IH]; [reflexivity|]. cbn [all_chars split_char].
  intros H. apply andb_true_iff in H as [Hc Hr]. specialize (IH Hr).
  destruct (split_char_cons nl r) as (l0 & ls & E). rewrite E in *.
  destruct (c =? nl)%char eqn:Hnl.
  - exact IH.
  - cbn [forallb all_chars] in *. unfold flat_char at 1.
    unfold no_paren in Hc. now rewrite Hc, Hnl.
Qed.

(** C2, as the code has it.  On a single form without inner parentheses the
    pretty printer is idempotent, newlines inside the form included. *)
Theorem format_sexpr_idempotent_on_single_form :
  forall indent t,
    all_chars no_paren t = true ->
    format_sexpr (format_sexpr ("(" ++ t ++ ")") indent) indent
    = format_sexpr ("(" ++ t ++ ")") indent.
Proof.
  intros indent t Ht.
  pose proof (split_char_flat t Ht) as Hflat.
  pose proof (concat_split_char nl t) as Hcat. fold NL in Hcat.
  destruct (split_char_cons nl t) as (l0 & ls & E). rewrite E in *.
  cbn [forallb] in Hflat. apply andb_true_iff in Hflat as [Hl0 Hls].
  rewrite <- Hcat. exact (format_sexpr_idempotent_lines indent l0 ls Hl0 Hls).
Qed.

Lemma format_sexpr_idempotent_on_single_form_witness :
  format_sexpr
    (format_sexpr ("(yaml:name  'A4786 " ++ NL ++ NL ++ " x )") 2) 2
  = format_sexpr ("(yaml:name  'A4786 " ++ NL ++ NL ++ " x )") 2.
Proof.
  exact (format_sexpr_idempotent_on_single_form 2
           ("yaml:name  'A4786 " ++ NL ++ NL ++ " x ") eq_refl).
Defined.

(** C2, as stated, fails: after the first pass every inner form starts on a
    line of its own, and the second pass turns each of these line breaks
    into two. *)
Lemma format_sexpr_not_idempotent :
  balanced "((a))" = true
  /\ format_sexpr "((a))" 2 = "(" ++ NL ++ "  ( a))"
  /\ format_sexpr (format_sexpr "((a))" 2) 2
     = "(" ++ NL ++ "  " ++ NL ++ "  ( a))"
  /\ format_sexpr (format_sexpr "((a))" 2) 2 <> format_sexpr "((a))" 2.
Proof.
  repeat split; try reflexivity.
  apply String.eqb_neq. reflexivity.
Qed.

Example format_sexpr_twice_on_encoder_output :
  let flat := "((yaml:name 'A4786)" ++ NL ++ "(yaml:active #t))" in
  format_sexpr flat 2
  = "(" ++ NL ++ "  ( yaml:name 'A4786)" ++ NL ++ "  " ++ NL
    ++ "  ( yaml:active #t))"
  /\ format_sexpr (format_sexpr flat 2) 2
     = "(" ++ NL ++ "  " ++ NL ++ "  ( yaml:name 'A4786)" ++ NL ++ "  "
       ++ NL ++ "  " ++ NL ++ "  ( yaml:active #t))".
Proof. split; reflexivity. Qed.

(** * Further properties *)

(** ** The classifier *)

(** X1.  Among the strings of the model (characters below 256, where the
    decimal digits are 0 to 9), [is_iso_date] accepts the texts of four
    digits, a hyphen, two digits, a hyphen and two digits, alone or followed
    by one newline, and no other text. *)
Theorem is_iso_date_accepts_exactly :
  forall s,
    is_iso_date s = true <->
    exists y m d,
      (String.length y = 4 /\ String.length m = 2 /\ String.length d = 2)%nat
      /\ all_chars is_digit (y ++ m ++ d) = true
      /\ (s = y ++ "-" ++ m ++ "-" ++ d \/ s = y ++ "-" ++ m ++ "-" ++ d ++ NL).
Proof.
  intros s. rewrite is_iso_date_spec. split.
  - intros (y & m & d & r & -> & Hlen & (Ay & Am & Ad) & Hr).
    exists y, m, d. rewrite !all_chars_app, Ay, Am, Ad.
    repeat split; try apply Hlen.
    destruct Hr as [-> | ->]; [left; now rewrite append_nil_r | now right].
  - intros (y & m & d & Hlen & Hall & Hs).
    rewrite !all_chars_app in Hall.
    apply andb_true_iff in Hall as [Ay Hall].
    apply andb_true_iff in Hall as [Am Ad].
    destruct Hs as [-> | ->].
    + exists y, m, d, "". rewrite append_nil_r. auto 10.
    + exists y, m, d, NL. auto 10.
Qed.

Lemma span_fst_all p s : all_chars p (fst (span p s)) = true.
Proof.
  induction s as [|c r IH]; simpl; [reflexivity|].
  destruct (p c) eqn:Hc; [|reflexivity].
  destruct (span p r). simpl in *. now rewrite Hc, IH.
Qed.

Lemma match_identifier_spec s :
  match_identifier s = true <->
  exists w, w <> "" /\ all_chars is_ident_char w = true
            /\ (s = w \/ s = w ++ NL).
Proof.
  unfold match_identifier. split.
  - pose proof (span_append is_ident_char s) as Happ.
    pose proof (span_fst_all is_ident_char s) as Hall.
    destruct (span is_ident_char s) as [[|c a] r]; [discriminate|].
    cbn [fst snd] in *. intros Hd. apply at_dollar_spec in Hd.
    exists (String c a). split; [discriminate|]. split; [exact Hall|].
    destruct Hd as [-> | ->].
    + left. now rewrite append_nil_r in Happ.
    + now right.
  - intros (w & Hne & Hall & [-> | ->]).
    + rewrite (span_all _ _ Hall). now destruct w.
    + unfold NL. rewrite (span_stop _ w nl "" Hall eq_refl). now destruct w.
Qed.

(** X2.  [is_symbolic_identifier] accepts the non-empty texts over
    [[A-Za-z0-9_]] that hold a digit, alone or followed by one newline, and
    no other text. *)
Theorem is_symbolic_identifier_accepts_exactly :
  forall s,
    is_symbolic_identifier s = true <->
    exists w,
      w <> "" /\ all_chars is_ident_char w = true /\ has_digit w = true
      /\ (s = w \/ s = w ++ NL).
Proof.
  intros s. unfold is_symbolic_identifier.
  rewrite andb_true_iff, match_identifier_spec. split.
  - intros [(w & Hne & Hall & Hs) Hdig]. exists w.
    repeat split; try assumption.
    destruct Hs as [-> | ->]; [exact Hdig|].
    rewrite has_digit_app in Hdig. simpl in Hdig.
    now rewrite orb_false_r in Hdig.
  - intros (w & Hne & Hall & Hdig & Hs). split; [eauto|].
    destruct Hs as [-> | ->]; [exact Hdig|].
    now rewrite has_digit_app, Hdig.
Qed.

Lemma symbolic_identifier_chars s :
  is_symbolic_identifier s = true ->
  all_chars (fun c => is_ident_char c || (c =? nl)%char) s = true.
Proof.
  intros H. unfold is_symbolic_identifier in H.
  apply andb_true_iff in H as [H _].
  apply match_identifier_spec in H as (w & _ & Hall & Hs).
  assert (Hw : all_chars (fun c => is_ident_char c || (c =? nl)%char) w
               = true).
  { eapply all_chars_weaken; [|exact Hall]. intros c Hc. now rewrite Hc. }
  destruct Hs as [-> | ->]; [exact Hw|].
  now rewrite all_chars_app, Hw.
Qed.

(** X3.  No string passes two of the three tests of the string branch: the
    date test, the placeholder test and the identifier test exclude one
    another, so the order in which [convert] tries them decides nothing. *)
Theorem classifier_tests_exclusive :
  forall s,
    is_iso_date s && (contains "{{" s && contains "}}" s) = false
    /\ is_iso_date s && is_symbolic_identifier s = false
    /\ (contains "{{" s && contains "}}" s) && is_symbolic_identifier s
       = false.
Proof.
  intros s. repeat split.
  - destruct (contains "{{" s) eqn:Hopen.
    + now rewrite (placeholder_not_iso_date _ Hopen).
    + apply andb_false_r.
  - destruct (is_iso_date s) eqn:Hd; [|reflexivity].
    destruct (is_symbolic_identifier s) eqn:Hsym; [|reflexivity].
    apply symbolic_identifier_chars in Hsym.
    apply is_iso_date_spec in Hd as (y & m & d & r & -> & _).
    rewrite all_chars_app in Hsym. simpl in Hsym.
    now rewrite andb_false_r in Hsym.
  - destruct (is_symbolic_identifier s) eqn:Hsym; [|apply andb_false_r].
    apply symbolic_identifier_chars in Hsym.
    destruct (contains "{{" s) eqn:Hopen; [|reflexivity].
    now pose proof (contains_all_chars _ _ _ Hopen Hsym).
Qed.

(** X4.  Every accepted date text is rendered from its three parts as they
    are written: no part is checked against the calendar, and a final
    newline stays in the day. *)
Theorem iso_date_string_parts_verbatim :
  forall prefix parent_key y m d r,
    (String.length y = 4 /\ String.length m = 2 /\ String.length d = 2)%nat ->
    all_chars is_digit (y ++ m ++ d) = true ->
    r = "" \/ r = NL ->
    convert prefix parent_key (VStr (y ++ "-" ++ m ++ "-" ++ d ++ r))
    = Ok ("(make-date " ++ y ++ " " ++ m ++ " " ++ d ++ r ++ ")").
Proof.
  intros prefix parent_key y m d r Hlen Hall Hr.
  rewrite !all_chars_app in Hall.
  apply andb_true_iff in Hall as [Ay Hall].
  apply andb_true_iff in Hall as [Am Ad].
  rewrite convert_string. unfold convert_str.
  assert (Hiso : is_iso_date (y ++ "-" ++ m ++ "-" ++ d ++ r) = true).
  { apply is_iso_date_spec. exists y, m, d, r. auto 10. }
  rewrite Hiso, split_iso_date by assumption.
  unfold make_date. now rewrite !append_assoc.
Qed.

Lemma iso_date_string_parts_verbatim_witness :
  convert "yaml" None (VStr "2024-13-45") = Ok "(make-date 2024 13 45)".
Proof.
  exact (iso_date_string_parts_verbatim "yaml" None "2024" "13" "45" ""
           (conj eq_refl (conj eq_refl eq_refl)) eq_refl (or_introl eq_refl)).
Defined.

(** X5.  Escaping loses nothing: reading the escaped text back gives the
    string, so two strings with the same escaped text are equal. *)
Theorem escape_string_round_trip :
  forall s,
    unescape (escape_string s) = s
    /\ forall s', escape_string s = escape_string s' -> s = s'.
Proof.
  assert (Hrt : forall s, unescape (escape_string s) = s).
  { intros s. rewrite escape_string_escaped.
    induction s as [|c s IH]; [reflexivity|].
    cbn [escaped]. unfold escape_char.
    destruct (Ascii.eqb_spec c backslash) as [->|Hb].
    - cbn [append BS unescape]. rewrite Ascii.eqb_refl. now rewrite IH.
    - destruct (Ascii.eqb_spec c dquote) as [->|Hq].
      + cbn [append BS DQ unescape]. rewrite Ascii.eqb_refl. now rewrite IH.
      + cbn [append unescape].
        destruct (Ascii.eqb_spec c backslash); [contradiction|].
        now rewrite IH. }
  intros s. split; [apply Hrt|].
  intros s' H. rewrite <- (Hrt s), <- (Hrt s'). now rewrite H.
Qed.

(** ** The encoder *)





(** ** The loader and the driver *)

(** X9.  When reading the input file raises (the file is missing, say),
    the run ends with that exception before the format is looked at,
    whatever the hint, and nothing is written. *)
Theorem missing_input_file_raised_first :
  forall safe_load_all suffix a env w e,
    files w (input a) = Err e ->
    main safe_load_all suffix a env w = (Err e, w).
Proof.
  intros safe_load_all suffix a env w e Hfile.
  unfold main, load_data. now rewrite Hfile.
Qed.

Lemma missing_input_file_raised_first_witness :
  main sample_parser sample_suffix (sample_args "nothing.json" (Some json))
    sample_environ sample_world
  = (Err FileNotFoundError, sample_world).
Proof.
  exact (missing_input_file_raised_first sample_parser sample_suffix
           (sample_args "nothing.json" (Some json)) sample_environ
           sample_world FileNotFoundError eq_refl).
Defined.

(** X10.  With no format hint a file that is read without error and whose
    suffix is neither [.yaml] nor [.yml] is rejected as unsupported,
    whatever its text: the parser is not asked and nothing is written. *)
Theorem unknown_suffix_is_unsupported :
  forall safe_load_all suffix a env w raw,
    files w (input a) = Ok raw ->
    format_hint a = None ->
    suffix (input a) <> ".yaml" ->
    suffix (input a) <> ".yml" ->
    main safe_load_all suffix a env w = (Err UnsupportedFormat, w).
Proof.
  intros safe_load_all suffix a env w raw Hfile Hfmt Hy1 Hy2.
  unfold main, load_data. rewrite Hfile, Hfmt. cbn [existsb].
  apply String.eqb_neq in Hy1, Hy2. now rewrite Hy1, Hy2.
Qed.

Lemma unknown_suffix_is_unsupported_witness :
  main sample_parser sample_suffix (sample_args "data.json" None)
    sample_environ sample_world
  = (Err UnsupportedFormat, sample_world).
Proof.
  apply (unknown_suffix_is_unsupported sample_parser sample_suffix
           (sample_args "data.json" None) sample_environ sample_world
           sample_json); [reflexivity | reflexivity | | ];
    vm_compute; discriminate.
Defined.

(** X11.  A text in which the parser finds no document (an empty file) ends
    the run with an index error, on either way to the parser: the loader
    takes the first element of the empty list of documents. *)
Theorem empty_stream_raises_index_error :
  forall safe_load_all suffix a env w raw,
    files w (input a) = Ok raw ->
    parsed_as_yaml suffix (input a) (format_hint a) ->
    safe_load_all
      (if env_flag a then substitute_env_variables env raw else raw) = Ok [] ->
    main safe_load_all suffix a env w = (Err IndexError, w).
Proof.
  intros safe_load_all suffix a env w raw Hfile Hfmt Hparse.
  unfold main.
  rewrite (load_data_parsed safe_load_all suffix (files w) env (input a)
             (format_hint a) (env_flag a) raw Hfile Hfmt).
  now rewrite Hparse.
Qed.

Lemma empty_stream_raises_index_error_witness :
  main (fun _ => Ok []) sample_suffix (sample_args "conf.yaml" None)
    sample_environ sample_world
  = (Err IndexError, sample_world)
  /\ main (fun _ => Ok []) sample_suffix
       (sample_args "data.json" (Some yaml)) sample_environ sample_world
     = (Err IndexError, sample_world).
Proof.
  split.
  - exact (empty_stream_raises_index_error (fun _ => Ok []) sample_suffix
             (sample_args "conf.yaml" None) sample_environ sample_world
             "home: ${HOME}, user: ${USER}." eq_refl
             (or_intror (conj eq_refl (or_introl eq_refl))) eq_refl).
  - exact (empty_stream_raises_index_error (fun _ => Ok []) sample_suffix
             (sample_args "data.json" (Some yaml)) sample_environ
             sample_world sample_json eq_refl (or_introl eq_refl) eq_refl).
Defined.

(** X12.  A stream of two or more documents is loaded as the list of its
    documents, so it gives the same run as a stream whose single document
    is that list. *)
Theorem stream_is_loaded_as_a_list :
  forall suffix a env w docs,
    (2 <= List.length docs)%nat ->
    main (fun _ => Ok docs) suffix a env w
    = main (fun _ => Ok [VList docs]) suffix a env w.
Proof.
  intros suffix a env w docs Hlen. unfold main, load_data.
  destruct (files w (input a)) as [raw|e]; [|reflexivity].
  destruct (match format_hint a with
            | Some f => format_eqb f yaml
            | None => existsb (String.eqb (suffix (input a)))
                        [".yaml"; ".yml"]
            end); [|reflexivity].
  assert (H : (1 <? List.length docs)%nat = true)
    by (apply Nat.ltb_lt; lia).
  now rewrite H.
Qed.

Lemma stream_is_loaded_as_a_list_witness :
  main (fun _ => Ok [VDict [(KText "a", VInt 1)]; VDict [(KText "b", VInt 2)]])
    sample_suffix (sample_args "conf.yaml" None) sample_environ sample_world
  = main
      (fun _ =>
         Ok [VList [VDict [(KText "a", VInt 1)]; VDict [(KText "b", VInt 2)]]])
      sample_suffix (sample_args "conf.yaml" None) sample_environ
      sample_world.
Proof.
  apply (stream_is_loaded_as_a_list sample_suffix
           (sample_args "conf.yaml" None) sample_environ sample_world
           [VDict [(KText "a", VInt 1)]; VDict [(KText "b", VInt 2)]]).
  simpl. lia.
Defined.

(** X13.  A run changes no file other than the one named as its output. *)
Theorem other_files_untouched :
  forall safe_load_all suffix a env w r w' p,
    main safe_load_all suffix a env w = (r, w') ->
    output a <> Some p ->
    files w' p = files w p.
Proof.
  intros safe_load_all suffix a env w r w' p. unfold main.
  destruct (load_data safe_load_all suffix (files w) env (input a)
              (format_hint a) (env_flag a)) as [data|e].
  - destruct (top_level data) as [sexpr|e].
    + destruct (output a) as [[|c q]|]; intros Hout Hp;
        try (now rewrite (print_files _ _ _ _ Hout)).
      apply write_file_effect in Hout as [-> | (n & -> & _)];
        [reflexivity|].
      cbn [set_file files].
      destruct (String.eqb_spec p (String c q)) as [Heq|]; [|reflexivity].
      subst p. now contradiction Hp.
    + now intros [= <- <-].
  - now intros [= <- <-].
Qed.

Lemma other_files_untouched_witness :
  files (snd (main sample_parser sample_suffix (sample_args "conf.yaml" None)
                sample_environ sample_world)) "conf.yaml"
  = files sample_world "conf.yaml".
Proof.
  apply (other_files_untouched sample_parser sample_suffix
           (sample_args "conf.yaml" None) sample_environ sample_world
           (Ok tt)); [reflexivity | discriminate].
Defined.

(** X14.  An empty output path counts as no output path: the text is
    printed. *)
Theorem empty_output_path_prints :
  forall safe_load_all suffix input_file fmt pretty_flag enable_env env w,
    main safe_load_all suffix
      {| input := input_file; output := Some ""; format_hint := fmt;
         pretty := pretty_flag; env_flag := enable_env |} env w
    = main safe_load_all suffix
        {| input := input_file; output := None; format_hint := fmt;
           pretty := pretty_flag; env_flag := enable_env |} env w.
Proof. reflexivity. Qed.

(** X15.  Without the substitution flag the environment is not read: two
    runs that differ in the environment only end alike. *)
Theorem environment_unread_without_flag :
  forall safe_load_all suffix a env env' w,
    env_flag a = false ->
    main safe_load_all suffix a env w = main safe_load_all suffix a env' w.
Proof.
  intros safe_load_all suffix a env env' w Hflag.
  unfold main, load_data. now rewrite Hflag.
Qed.

Lemma environment_unread_without_flag_witness :
  main sample_parser sample_suffix (sample_args "conf.yaml" None)
    sample_environ sample_world
  = main sample_parser sample_suffix (sample_args "conf.yaml" None)
      (fun _ => None) sample_world.
Proof.
  exact (environment_unread_without_flag sample_parser sample_suffix
           (sample_args "conf.yaml" None) sample_environ (fun _ => None)
           sample_world eq_refl).
Defined.



Example two_documents_wrapped :
  top_level (VList [VDict [(KText "a", VInt 1); (KText "b", VInt 2)]; VDict []])
  = Ok ("(((yaml:a 1)" ++ NL ++ "(yaml:b 2)) ())").
Proof. reflexivity. Qed.

(** X18.  A text without a dollar sign is left as it is by the
    substitution, whatever the environment holds. *)
Theorem substitute_without_dollar :
  forall env s,
    all_chars (fun c => negb (c =? "$")%char) s = true ->
    substitute_env_variables env s = s.
Proof.
  intros env s Hs. apply substitute_ref_free.
  induction s as [|c r IH]; [reflexivity|].
  cbn [all_chars] in Hs. apply andb_true_iff in Hs as [Hc Hr].
  apply negb_true_iff in Hc.
  cbn [ref_free]. unfold match_var at 1. cbn [lit]. rewrite Hc.
  cbn [obind]. now apply IH.
Qed.

Lemma substitute_without_dollar_witness :
  substitute_env_variables sample_environ "home: {HOME}"
  = "home: {HOME}".
Proof.
  exact (substitute_without_dollar sample_environ "home: {HOME}" eq_refl).
Defined.

(** ** The pretty printer *)

(** X19.  Text behind the last parenthesis or newline is dropped: a pending
    token is emitted only in front of a parenthesis or a newline, and the
    loop ends without emitting the last one.  A text without parentheses and
    newlines is printed as the empty string. *)
Theorem format_sexpr_drops_trailing_token :
  forall indent expr t,
    all_chars flat_char t = true ->
    format_sexpr (expr ++ t) indent = format_sexpr expr indent.
Proof.
  intros indent expr t Ht. unfold format_sexpr.
  now rewrite pp_run_app, (pp_run_flat _ _ Ht).
Qed.

Lemma format_sexpr_drops_trailing_token_witness :
  format_sexpr "(a) b c" 2 = format_sexpr "(a)" 2
  /\ format_sexpr "A4786" 2 = "".
Proof.
  split.
  - exact (format_sexpr_drops_trailing_token 2 "(a)" " b c" eq_refl).
  - exact (format_sexpr_drops_trailing_token 2 "" "A4786" eq_refl).
Defined.

Lemma nonspace_app a b : nonspace (a ++ b) = nonspace a ++ nonspace b.
Proof.
  induction a as [|c a IH]; simpl; [reflexivity|].
  destruct (is_space c); simpl; now rewrite IH.
Qed.

Lemma nonspace_blank k : all_chars is_space k = true -> nonspace k = "".
Proof.
  induction k as [|c k IH]; simpl; [reflexivity|].
  intros H. apply andb_true_iff in H as [Hc Hk]. now rewrite Hc, IH.
Qed.

Lemma nonspace_lstrip s : nonspace (lstrip s) = nonspace s.
Proof.
  induction s as [|c s IH]; simpl; [reflexivity|].
  destruct (is_space c) eqn:Hc; [exact IH|]. simpl. now rewrite Hc.
Qed.

Lemma nonspace_rstrip s : nonspace (rstrip s) = nonspace s.
Proof.
  induction s as [|c s IH]; simpl; [reflexivity|].
  destruct (rstrip s) as [|a b].
  - rewrite <- IH. destruct (is_space c) eqn:Hc; simpl; [reflexivity|].
    now rewrite Hc.
  - rewrite <- IH. cbn [nonspace]. reflexivity.
Qed.

Lemma nonspace_strip s : nonspace (strip s) = nonspace s.
Proof. unfold strip. now rewrite nonspace_lstrip, nonspace_rstrip. Qed.

Lemma content_flush lead st :
  nonspace lead = "" -> content (flush lead st) = content st.
Proof.
  intros Hlead. unfold flush.
  pose proof (nonspace_strip (token st)) as Hs.
  destruct (strip (token st)) as [|a u]; [reflexivity|].
  unfold content, joined. cbn [result token].
  rewrite concat_empty_snoc, !nonspace_app, Hlead, Hs.
  cbn [append nonspace]. now rewrite append_nil_r.
Qed.

Lemma content_emit R d k piece :
  content {| result := R ++ [piece]; depth := d; token := k |}
  = nonspace (String.concat "" R) ++ nonspace piece ++ nonspace k.
Proof.
  unfold content, joined. cbn [result token].
  now rewrite concat_empty_snoc, nonspace_app, append_assoc.
Qed.

Lemma content_unfold st :
  content st = nonspace (String.concat "" (result st)) ++ nonspace (token st).
Proof. reflexivity. Qed.

Lemma flush_token_nonspace lead st : nonspace (token (flush lead st)) = "".
Proof.
  unfold flush. destruct (strip (token st)) as [|a u] eqn:E; [|reflexivity].
  apply nonspace_blank, strip_blank, E.
Qed.

(** one step of the loop adds the character it reads, if it is no
    whitespace, and nothing else *)
Lemma content_step indent st c :
  content (pp_step indent st c) = content st ++ nonspace (String c "").
Proof.
  unfold pp_step.
  destruct (Ascii.eqb_spec c "(") as [->|Hopen].
  - rewrite content_emit, !nonspace_app, (nonspace_blank _ (spaces_blank _)).
    rewrite <- (content_flush "" st eq_refl), content_unfold.
    rewrite flush_token_nonspace, !append_nil_r. reflexivity.
  - destruct (Ascii.eqb_spec c ")") as [->|Hclose].
    + rewrite content_emit.
      rewrite <- (content_flush " " st eq_refl), content_unfold.
      rewrite flush_token_nonspace, !append_nil_r. reflexivity.
    + destruct (Ascii.eqb_spec c nl) as [->|Hnl].
      * rewrite content_emit, !nonspace_app,
          (nonspace_blank _ (spaces_blank _)).
        rewrite <- (content_flush " " st eq_refl), content_unfold.
        rewrite flush_token_nonspace, !append_nil_r. reflexivity.
      * unfold content, joined. cbn [result token].
        now rewrite nonspace_app, append_assoc.
Qed.

Lemma content_run indent s :
  forall st, content (pp_run indent st s) = content st ++ nonspace s.
Proof.
  induction s as [|c s IH]; intros st; cbn [pp_run].
  - cbn [nonspace]. now rewrite append_nil_r.
  - rewrite IH, content_step, append_assoc. f_equal.
    now rewrite <- nonspace_app.
Qed.

Lemma format_sexpr_nonspace indent expr :
  nonspace (format_sexpr (expr ++ ")") indent) = nonspace (expr ++ ")").
Proof.
  unfold format_sexpr. rewrite nonspace_strip.
  pose proof (content_run indent (expr ++ ")") pp_init) as H.
  change (content pp_init) with "" in H. cbn [append] in H.
  rewrite <- H. rewrite content_unfold.
  rewrite pp_run_app. cbn [pp_run]. rewrite pp_step_close. cbn zeta.
  cbn [token]. now rewrite flush_token_nonspace, append_nil_r.
Qed.

(** X20.  The pretty printer changes whitespace only: on a text that ends
    with a closing parenthesis, the characters other than whitespace are the
    same, in the same order, before and after. *)
Theorem format_sexpr_changes_only_whitespace :
  forall indent expr,
    nonspace (format_sexpr (expr ++ ")") indent) = nonspace (expr ++ ")").
Proof. intros indent expr. apply format_sexpr_nonspace. Qed.

Lemma top_level_closed data sexpr :
  top_level data = Ok sexpr -> exists x, sexpr = x ++ ")".
Proof.
  assert (H : forall r : res string,
             (do e <- r; Ok ("(" ++ e ++ ")")) = Ok sexpr ->
             exists x, sexpr = x ++ ")").
  { intros [e|err]; [|discriminate]. intros [= <-].
    exists ("(" ++ e). now rewrite append_assoc. }
  destruct data; try apply H. cbn [top_level].
  destruct (forallb is_dict elems); [|apply H].
  destruct (wrap_docs elems) as [ps|err]; [|discriminate].
  intros [= <-]. exists ("(" ++ String.concat " " ps).
  now rewrite append_assoc.
Qed.

(** X21.  The text a run builds ends with a closing parenthesis, so with
    the pretty flag the output of the run differs from the output without
    it in whitespace only: the pretty printer drops and adds no other
    character. *)
Theorem pretty_output_differs_in_whitespace_only :
  forall data sexpr indent,
    top_level data = Ok sexpr ->
    nonspace (format_sexpr sexpr indent) = nonspace sexpr.
Proof.
  intros data sexpr indent H.
  destruct (top_level_closed data sexpr H) as [x ->].
  apply format_sexpr_nonspace.
Qed.

Lemma pretty_output_differs_in_whitespace_only_witness :
  nonspace
    (format_sexpr
       ("((yaml:name 'A4786)" ++ NL ++ "(yaml:tags (" ++ NL
        ++ "(yaml:item x y))))") 2)
  = "((yaml:name'A4786)(yaml:tags((yaml:itemxy))))".
Proof.
  exact (pretty_output_differs_in_whitespace_only
           (VDict [(KText "name", VStr "A4786");
                   (KText "tags", VList [VOther "x y"])])
           _ 2 eq_refl).
Defined.

Example format_sexpr_content :
  nonspace (format_sexpr ("((yaml:a 1)" ++ NL ++ "(yaml:b 2))") 2)
  = "((yaml:a1)(yaml:b2))".
Proof. reflexivity. Qed.

Lemma concat_empty_cons x l :
  String.concat "" (x :: l) = x ++ String.concat "" l.
Proof. destruct l; [now rewrite append_nil_r | reflexivity]. Qed.

Lemma continued_map n ls :
  continued n ls
  = String.concat "" (map (fun l => NL ++ spaces n ++ flushed l) ls).
Proof.
  induction ls as [|l r IH]; [reflexivity|].
  cbn [continued map]. now rewrite concat_empty_cons, IH, !append_assoc.
Qed.

(** X22.  Layout of a form without inner parentheses.  The first line is
    trimmed and follows the opening parenthesis after one space; every
    further line is trimmed and starts a new line with the indentation and
    one space in front; a line that holds whitespace only leaves its line
    break and indentation. *)
Theorem format_sexpr_single_form_layout :
  forall indent first rest,
    all_chars flat_char first = true ->
    forallb (all_chars flat_char) rest = true ->
    format_sexpr ("(" ++ String.concat NL (first :: rest) ++ ")") indent
    = "(" ++ flushed first
      ++ String.concat ""
           (map (fun l => NL ++ spaces indent ++ flushed l) rest)
      ++ ")".
Proof.
  intros indent first rest Hfirst Hrest.
  rewrite (format_sexpr_lines indent first rest Hfirst Hrest).
  now rewrite continued_map.
Qed.

Lemma format_sexpr_single_form_layout_witness :
  format_sexpr ("(yaml:name  'A4786 " ++ NL ++ "  " ++ NL ++ " x )") 2
  = "( yaml:name  'A4786" ++ NL ++ "  " ++ NL ++ "   x)".
Proof.
  exact (format_sexpr_single_form_layout 2 "yaml:name  'A4786 "
           ["  "; " x "] eq_refl eq_refl).
Defined.

(** ** Dates, native and written *)





Example early_year_differs :
  convert "yaml" None (VDate 999 1 1) = Ok "(make-date 999 01 01)"
  /\ convert "yaml" None (VStr "0999-01-01") = Ok "(make-date 0999 01 01)".
Proof. split; reflexivity. Qed.
